(** * Pinniped: upstream LDAP provider and RFC 8693 token exchange

    A shallow embedding of [internal/upstreamldap] (the LDAP provider) and of
    [internal/oidc] (the token-exchange handler), with the parts of the Go
    standard library, of go-ldap and of fosite that those two packages call.

    Go strings are byte sequences; they are rendered as [string], whose
    characters are 8-bit [ascii] values.  Go [int] indices are rendered as
    [Z], with [-1] for "not found", as the Go functions return it. *)

From Stdlib Require Import ZArith Ascii String Lia Bool DecimalString.
From stdpp Require Import gmap strings list.
From Equations Require Import Equations.
From Equations.Prop Require Import Logic.

Local Open Scope Z_scope.

(** ** Go string primitives *)

Module gostr.

(** [len(s)] *)
Definition len (s : string) : Z := Z.of_nat (String.length s).

(** [s[i:j]] *)
Definition slice (s : string) (i j : Z) : string :=
  String.substring (Z.to_nat i) (Z.to_nat (j - i)) s.

(** [s[i:]] *)
Definition sliceFrom (s : string) (i : Z) : string := slice s i (len s).

(** [s[i]]; [None] stands for the out-of-range panic. *)
Definition at_ (s : string) (i : Z) : option ascii :=
  if i <? 0 then None else String.get (Z.to_nat i) s.

(** The double quote, and [%q] of a string that needs no escaping. *)
Definition dquote : string := String (ascii_of_nat 34) "".
Definition quoted (s : string) : string := dquote +:+ s +:+ dquote.

(** [bytealg.IndexByteString]: index of the first [c] in [s], or [-1]. *)
Fixpoint IndexByteString (s : string) (c : ascii) : Z :=
  match s with
  | EmptyString => -1
  | String b s' =>
      if Ascii.eqb b c then 0
      else let r := IndexByteString s' c in
           if r <? 0 then -1 else r + 1
  end.

(** Membership of a byte, used to state side conditions. *)
Fixpoint has_byte (c : ascii) (s : string) : bool :=
  match s with
  | EmptyString => false
  | String b s' => Ascii.eqb b c || has_byte c s'
  end.

End gostr.

(** ** Package [strings] *)

Module strings.
Import gostr.

(** [len(s) >= len(prefix) && s[0:len(prefix)] == prefix] *)
Definition HasPrefix (s prefix : string) : bool :=
  (len prefix <=? len s) && String.eqb (slice s 0 (len prefix)) prefix.

(** [len(s) >= len(suffix) && s[len(s)-len(suffix):] == suffix] *)
Definition HasSuffix (s suffix : string) : bool :=
  (len suffix <=? len s) && String.eqb (sliceFrom s (len s - len suffix)) suffix.

(** [strings.Index]: index of the first occurrence of [substr], or [-1]. *)
Fixpoint Index (s substr : string) : Z :=
  if HasPrefix s substr then 0
  else match s with
       | EmptyString => -1
       | String _ s' =>
           let r := Index s' substr in
           if r <? 0 then -1 else r + 1
       end.

(** [strings.Contains] *)
Definition Contains (s substr : string) : bool := 0 <=? Index s substr.

(** A Go slice [s[k:]] taken behind a match is shorter than [s]. *)
Lemma sliceFrom_shorter (s : string) (k : Z) :
  0 < k -> (String.length (sliceFrom s k) < String.length s \/ s = "")%nat.
Proof.
  intros Hk. unfold sliceFrom, slice, len.
  destruct s as [|c s]; [by right|left].
  assert (Hle : forall (t : string) (n m : nat),
             (String.length (String.substring n m t) <= String.length t - n)%nat).
  { induction t as [|a t IH]; intros [|n] [|m]; simpl; try lia.
    - specialize (IH 0%nat m). lia.
    - apply IH.
    - apply IH. }
  specialize (Hle (String c s) (Z.to_nat k)
                (Z.to_nat (Z.of_nat (String.length (String c s)) - k))).
  simpl in *. lia.
Qed.

(** The counting loop of [strings.Count]:
    [for { i := Index(s, substr); if i == -1 { return n }; n++;
           s = s[i+len(substr):] }].
    [Count] enters it with a [substr] of two bytes or more; the guard on an
    empty [substr], under which the Go loop would not end, makes it total. *)
Equations? countLoop (s substr : string) (n : Z) : Z
  by wf (String.length s) lt :=
  countLoop s substr n
    with inspect (bool_decide (Index s substr = -1) || (len substr <=? 0)) := {
    | exist _ true _ := n
    | exist _ false Hgo :=
        countLoop (sliceFrom s (Index s substr + len substr)) substr (n + 1) }.
Proof.
  apply orb_false_elim in Hgo as [Hi1 Hlen].
  apply bool_decide_eq_false in Hi1.
  apply Z.leb_gt in Hlen.
  assert (-1 <= Index s substr).
  { clear. induction s as [|a s IH]; simpl.
    - destruct (HasPrefix "" substr); lia.
    - destruct (HasPrefix (String a s) substr); [lia|].
      destruct (Index s substr <? 0) eqn:E; [|lia].
      apply Z.ltb_lt in E. lia. }
  destruct (sliceFrom_shorter s (Index s substr + len substr)) as [Hlt | ->];
    [lia|done|].
  exfalso. apply Hi1. simpl. unfold HasPrefix.
  replace (len substr <=? len "") with false; [done|].
  symmetry. apply Z.leb_gt. change (len "") with 0. lia.
Qed.

(** [bytealg.CountString]: the number of bytes of [s] equal to [c]. *)
Fixpoint CountString (s : string) (c : ascii) : Z :=
  match s with
  | EmptyString => 0
  | String b s' => (if Ascii.eqb b c then 1 else 0) + CountString s' c
  end.

(** [strings.Count].  For an empty [substr] Go counts runes; that case is
    rendered byte-wise (one rune per byte), and is not reached from the
    packages modelled here, which pass a two-byte marker. *)
Definition Count (s substr : string) : Z :=
  if len substr =? 0 then len s + 1
  else match substr with
       | String c EmptyString => CountString s c
       | _ => countLoop s substr 0
       end.

(** The replacement loop of [strings.Replace]:
    [for i := 0; i < n; i++ { j := start; ...; b.WriteString(s[start:j]);
     b.WriteString(new); start = j + len(old) }; b.WriteString(s[start:])]. *)
Fixpoint replaceLoop (n : nat) (first : bool) (s old new : string)
    (start : Z) (b : string) : string :=
  match n with
  | O => b +:+ sliceFrom s start
  | S n' =>
      let j :=
        if len old =? 0 then (if first then start else start + 1)
        else start + Index (sliceFrom s start) old in
      replaceLoop n' false s old new (j + len old)
        (b +:+ slice s start j +:+ new)
  end.

(** [strings.Replace] *)
Definition Replace (s old new : string) (n : Z) : string :=
  if String.eqb old new || (n =? 0) then s
  else
    let m := Count s old in
    if m =? 0 then s
    else
      let n := if (n <? 0) || (m <? n) then m else n in
      replaceLoop (Z.to_nat n) true s old new 0 "".

(** [strings.ReplaceAll] *)
Definition ReplaceAll (s old new : string) : string := Replace s old new (-1).

End strings.

(** ** Package [net]: host/port splitting and joining *)

Module net.
Import gostr.

Record AddrError := { Err : string; Addr : string }.

(** The [Error] method of [AddrError]. *)
Definition AddrError_Error (e : AddrError) : string :=
  if String.eqb (Addr e) "" then Err e
  else "address " +:+ Addr e +:+ ": " +:+ Err e.

Definition missingPort : string := "missing port in address".
Definition tooManyColons : string := "too many colons in address".

Definition addrErr (addr why : string) : (string * string) + AddrError :=
  inr {| Err := why; Addr := addr |}.

(** [last]: index of the last [b] in [s], or [-1]. *)
Fixpoint last (s : string) (b : ascii) : Z :=
  match s with
  | EmptyString => -1
  | String c s' =>
      let r := last s' b in
      if 0 <=? r then r + 1
      else if Ascii.eqb c b then 0 else -1
  end.

(** The common tail of [SplitHostPort], after [host], [j] and [k] are set. *)
Definition splitTail (hostport host : string) (i j k : Z)
  : (string * string) + AddrError :=
  if 0 <=? IndexByteString (sliceFrom hostport j) "[" then
    addrErr hostport "unexpected '[' in address"
  else if 0 <=? IndexByteString (sliceFrom hostport k) "]" then
    addrErr hostport "unexpected ']' in address"
  else inl (host, sliceFrom hostport (i + 1)).

(** [net.SplitHostPort] *)
Definition SplitHostPort (hostport : string) : (string * string) + AddrError :=
  let i := last hostport ":" in
  if i <? 0 then addrErr hostport missingPort
  else if bool_decide (at_ hostport 0 = Some "["%char) then
    let end_ := IndexByteString hostport "]" in
    if end_ <? 0 then addrErr hostport "missing ']' in address"
    else if end_ + 1 =? len hostport then addrErr hostport missingPort
    else if end_ + 1 =? i then
      splitTail hostport (slice hostport 1 end_) i 1 (end_ + 1)
    else if bool_decide (at_ hostport (end_ + 1) = Some ":"%char) then
      addrErr hostport tooManyColons
    else addrErr hostport missingPort
  else
    let host := slice hostport 0 i in
    if 0 <=? IndexByteString host ":" then addrErr hostport tooManyColons
    else splitTail hostport host i 0 0.

(** [net.JoinHostPort] *)
Definition JoinHostPort (host port : string) : string :=
  if 0 <=? IndexByteString host ":" then "[" +:+ host +:+ "]:" +:+ port
  else host +:+ ":" +:+ port.

End net.

(** ** Package [ldap] (go-ldap): the parts the provider uses *)

Module ldap.
Import gostr.

Definition DefaultLdapsPort : string := "636".

(** [ldap.NewError(ldap.ErrorNetwork, err)], as its [Error()] text:
    [fmt.Sprintf("LDAP Result Code %d %q: %s", code, name, err)] with
    code 200, named "Network Error". *)
Definition NewError_ErrorNetwork (err : string) : string :=
  "LDAP Result Code 200 " +:+ quoted "Network Error" +:+ ": " +:+ err.

Definition ScopeWholeSubtree : Z := 2.
Definition DerefAlways : Z := 3.

Record EntryAttribute := { Name : string; Values : list string }.
Record Entry := { DN : string; Attributes : list EntryAttribute }.
Record SearchResult := { Entries : list Entry }.

Record SearchRequest := {
  BaseDN : string;
  Scope : Z;
  DerefAliases : Z;
  SizeLimit : Z;
  TimeLimit : Z;
  TypesOnly : bool;
  Filter : string;
  ReqAttributes : list string;
  Controls : list string
}.

(** [Entry.GetAttributeValues]: the values of the first attribute of that
    name, or the empty list. *)
Fixpoint GetAttributeValues (attrs : list EntryAttribute) (attribute : string)
  : list string :=
  match attrs with
  | [] => []
  | a :: rest =>
      if String.eqb (Name a) attribute then Values a
      else GetAttributeValues rest attribute
  end.

(** [mustEscape]: bytes above 0x7f, the four filter metacharacters and NUL. *)
Definition mustEscape (c : ascii) : bool :=
  (127 <? Z.of_N (N_of_ascii c))
  || Ascii.eqb c "("%char || Ascii.eqb c ")"%char
  || Ascii.eqb c "\"%char || Ascii.eqb c "*"%char
  || (Z.of_N (N_of_ascii c) =? 0).

Definition hex : string := "0123456789abcdef".

Definition hexAt (i : Z) : ascii :=
  match at_ hex i with Some d => d | None => "000"%char end.

(** The number of bytes to escape (first loop of [EscapeFilter]). *)
Fixpoint escapeCount (filter : string) : Z :=
  match filter with
  | EmptyString => 0
  | String c rest =>
      (if mustEscape c then 1 else 0) + escapeCount rest
  end.

(** The copying loop of [EscapeFilter]: an escaped byte becomes a backslash
    and its two lower-case hexadecimal digits. *)
Fixpoint escapeBytes (filter : string) : string :=
  match filter with
  | EmptyString => EmptyString
  | String c rest =>
      if mustEscape c then
        String "\"%char
          (String (hexAt (Z.shiftr (Z.of_N (N_of_ascii c)) 4))
             (String (hexAt (Z.land (Z.of_N (N_of_ascii c)) 15))
                (escapeBytes rest)))
      else String c (escapeBytes rest)
  end.

(** [ldap.EscapeFilter] *)
Definition EscapeFilter (filter : string) : string :=
  if escapeCount filter =? 0 then filter else escapeBytes filter.

End ldap.

(** ** Package [upstreamldap] *)

Module upstreamldap.
Import gostr.

Definition ldapsScheme : string := "ldaps".
Definition distinguishedNameAttributeName : string := "dn".
Definition userSearchFilterInterpolationLocationMarker : string := "{}".
Definition invalidCredentialsErrorPrefix : string :=
  "LDAP Result Code 49 " +:+ quoted "Invalid Credentials" +:+ ":".

(** A Go [error] is rendered by the text of its [Error()] method; [None] is
    the nil error. *)
Definition error : Type := string.

(** Adds the default port if [hostAndPort] did not already include a port. *)
Definition hostAndPortWithDefaultPort (hostAndPort defaultPort : string)
  : string + error :=
  let split :=
    match net.SplitHostPort hostAndPort with
    | inl (host, port) => inl (host, port)
    | inr err =>
        if strings.HasSuffix (net.AddrError_Error err) ": missing port in address"
        then inl (hostAndPort, defaultPort)
        else inr (net.AddrError_Error err)
    end in
  match split with
  | inr e => inr e
  | inl (host, port) =>
      if negb (String.eqb port "") && strings.HasPrefix host "["
         && strings.HasSuffix host "]"
      then inl (host +:+ ":" +:+ port)
      else if negb (String.eqb port "") then inl (net.JoinHostPort host port)
      else inl host
  end.

(** [[]byte]: a slice header over a byte array that lives in memory.  The
    nil slice is [None] at the use sites. *)
Record byteSlice := { data : positive; start : nat; count : nat }.

(** The byte arrays of the Go heap, by address. *)
Abbreviation Memory := (gmap positive (list ascii)).

(** The bytes a slice denotes in a memory. *)
Definition sliceBytes (m : Memory) (s : byteSlice) : list ascii :=
  take (count s) (drop (start s) (default [] (m !! data s))).

(** [s[i] = b]; [None] is the index-out-of-range panic. *)
Definition sliceStore (m : Memory) (s : byteSlice) (i : nat) (b : ascii)
  : option Memory :=
  if bool_decide (i < count s)%nat
  then Some (alter (fun bytes => <[(start s + i)%nat := b]> bytes) (data s) m)
  else None.

Record UserSearchConfig := {
  Base : string;
  Filter : string;
  UsernameAttribute : string;
  UIDAttribute : string
}.

(** [user.DefaultInfo] and [authenticator.Response], as far as they are
    filled in here. *)
Record DefaultInfo := { Name : string; UID : string; Groups : list string }.
Record Response := { User : DefaultInfo }.

(** Network events, in the order the provider causes them. *)
Inductive Event :=
| EvDial (hostAndPort : string)
| EvBind (username password : string)
| EvSearch (req : ldap.SearchRequest)
| EvClose.

Section Provider.
(** The state of everything beyond the process (servers, sockets), and the
    type of [context.Context]. *)
Context {World Ctx : Type}.

(** The interface [Conn], as the record of its methods. *)
Record Conn := {
  Bind : string -> string -> World -> option error * World;
  Search : ldap.SearchRequest -> World -> (ldap.SearchResult + error) * World;
  Close : World -> World
}.

(** The interface [LDAPDialer]. *)
Record LDAPDialer := {
  Dial : Ctx -> string -> World -> (Conn + error) * World
}.

Record ProviderConfig := {
  ConfigName : string;
  Host : string;
  CABundle : option byteSlice;
  BindUsername : string;
  BindPassword : string;
  UserSearch : UserSearchConfig;
  Dialer : option LDAPDialer
}.

Record Provider := { c : ProviderConfig }.

(** The state a provider method runs in: the heap of byte arrays, the
    outside world, and the network events caused so far. *)
Record State := { mem : Memory; world : World; trace : list Event }.

Definition M (A : Type) : Type := State -> A * State.
Definition ret {A} (a : A) : M A := fun st => (a, st).
Definition bind {A B} (m : M A) (k : A -> M B) : M B :=
  fun st => let (a, st') := m st in k a st'.

(** One call on the outside world, recorded in the trace. *)
Definition call {A} (ev : Event) (f : World -> A * World) : M A :=
  fun st =>
    let (a, w) := f (world st) in
    (a, {| mem := mem st; world := w; trace := trace st ++ [ev] |}).

Definition connBind (conn : Conn) (username password : string)
  : M (option error) :=
  call (EvBind username password) (Bind conn username password).
Definition connSearch (conn : Conn) (req : ldap.SearchRequest)
  : M (ldap.SearchResult + error) :=
  call (EvSearch req) (Search conn req).
Definition connClose (conn : Conn) : M unit :=
  call EvClose (fun w => (tt, Close conn w)).

(** [defer conn.Close()]: the connection is closed when [body] returns. *)
Definition deferClose {A} (conn : Conn) (body : M A) : M A :=
  bind body (fun a => bind (connClose conn) (fun _ => ret a)).

(** The crypto and TLS layers below [dialTLS]: whether a PEM bundle
    yields at least one certificate, and the TLS 1.2+ dial followed by
    [ldap.NewConn] and [Start]. *)
Variable AppendCertsFromPEM : list ascii -> bool.
Variable tlsDialAndStart :
  Ctx -> option (list ascii) -> string -> World -> (Conn + error) * World.

(** Create a Provider; the config is passed by value. *)
Definition New (config : ProviderConfig) : Provider := {| c := config |}.

(** A reader for the config. *)
Definition GetConfig (p : Provider) : ProviderConfig := c p.

(** The default implementation of the dialer, used when Dialer is nil. *)
Definition dialTLS (p : Provider) (ctx : Ctx) (hostAndPort : string)
  : M (Conn + error) :=
  fun st =>
    let rootCAs :=
      match CABundle (c p) with
      | Some bundle =>
          if AppendCertsFromPEM (sliceBytes (mem st) bundle)
          then inl (Some (sliceBytes (mem st) bundle))
          else inr tt
      | None => inl None
      end in
    match rootCAs with
    | inr _ =>
        ret (inr (ldap.NewError_ErrorNetwork "could not parse CA bundle")) st
    | inl pool =>
        bind (call (EvDial hostAndPort) (tlsDialAndStart ctx pool hostAndPort))
          (fun r =>
             match r with
             | inr err => ret (inr (ldap.NewError_ErrorNetwork err))
             | inl conn => ret (inl conn)
             end) st
    end.

Definition dial (p : Provider) (ctx : Ctx) : M (Conn + error) :=
  match hostAndPortWithDefaultPort (Host (c p)) ldap.DefaultLdapsPort with
  | inr err => ret (inr (ldap.NewError_ErrorNetwork err))
  | inl hostAndPort =>
      match Dialer (c p) with
      | Some d => call (EvDial hostAndPort) (Dial d ctx hostAndPort)
      | None => dialTLS p ctx hostAndPort
      end
  end.

(** A name for this upstream provider. *)
Definition GetName (p : Provider) : string := ConfigName (c p).

(** A URL which uniquely identifies this LDAP provider. *)
Definition GetURL (p : Provider) : string :=
  ldapsScheme +:+ "://" +:+ Host (c p).

Definition validateConfig (p : Provider) : option error :=
  if String.eqb (UsernameAttribute (UserSearch (c p))) distinguishedNameAttributeName
     && (len (Filter (UserSearch (c p))) =? 0)
  then Some ("must specify UserSearch Filter when UserSearch UsernameAttribute is "
             +:+ quoted "dn")
  else None.

Definition TestConnection (p : Provider) (ctx : Ctx) : M (option error) :=
  match validateConfig p with
  | Some err => ret (Some err)
  | None =>
      bind (dial p ctx) (fun r =>
        match r with
        | inr err =>
            ret (Some ("error dialing host " +:+ quoted (Host (c p)) +:+ ": " +:+ err))
        | inl conn =>
            deferClose conn
              (bind (connBind conn (BindUsername (c p)) (BindPassword (c p)))
                 (fun err =>
                    match err with
                    | Some e =>
                        ret (Some ("error binding as "
                                   +:+ quoted (BindUsername (c p)) +:+ ": " +:+ e))
                    | None => ret None
                    end))
        end)
  end.

Definition escapeUsernameForSearchFilter (p : Provider) (username : string)
  : string :=
  ldap.EscapeFilter username.

Definition userSearchFilter (p : Provider) (username : string) : string :=
  let safeUsername := escapeUsernameForSearchFilter p username in
  if len (Filter (UserSearch (c p))) =? 0 then
    "(" +:+ UsernameAttribute (UserSearch (c p)) +:+ "=" +:+ safeUsername +:+ ")"
  else
    let filter :=
      strings.ReplaceAll (Filter (UserSearch (c p)))
        userSearchFilterInterpolationLocationMarker safeUsername in
    if strings.HasPrefix filter "(" && strings.HasSuffix filter ")"
    then filter
    else "(" +:+ filter +:+ ")".

Definition userSearchRequestedAttributes (p : Provider) : list string :=
  let attributes := [] in
  let attributes :=
    if negb (String.eqb (UsernameAttribute (UserSearch (c p)))
               distinguishedNameAttributeName)
    then attributes ++ [UsernameAttribute (UserSearch (c p))]
    else attributes in
  let attributes :=
    if negb (String.eqb (UIDAttribute (UserSearch (c p)))
               distinguishedNameAttributeName)
    then attributes ++ [UIDAttribute (UserSearch (c p))]
    else attributes in
  attributes.

Definition userSearchRequest (p : Provider) (username : string)
  : ldap.SearchRequest :=
  {| ldap.BaseDN := Base (UserSearch (c p));
     ldap.Scope := ldap.ScopeWholeSubtree;
     ldap.DerefAliases := ldap.DerefAlways;
     ldap.SizeLimit := 2;
     ldap.TimeLimit := 90;
     ldap.TypesOnly := false;
     ldap.Filter := userSearchFilter p username;
     ldap.ReqAttributes := userSearchRequestedAttributes p;
     ldap.Controls := [] |}.

(** [%d] of a count. *)
Definition decimal (n : nat) : string :=
  NilZero.string_of_uint (Nat.to_uint n).

Definition getSearchResultAttributeValue (p : Provider)
    (attributeName : string) (fromUserEntry : ldap.Entry) (username : string)
  : string + error :=
  if String.eqb attributeName distinguishedNameAttributeName
  then inl (ldap.DN fromUserEntry)
  else
    let attributeValues :=
      ldap.GetAttributeValues (ldap.Attributes fromUserEntry) attributeName in
    match attributeValues with
    | [attributeValue] =>
        if len attributeValue =? 0 then
          inr ("found empty value for attribute " +:+ quoted attributeName
               +:+ " while searching for user " +:+ quoted username
               +:+ ", but expected value to be non-empty")
        else inl attributeValue
    | _ =>
        inr ("found " +:+ decimal (List.length attributeValues)
             +:+ " values for attribute " +:+ quoted attributeName
             +:+ " while searching for user " +:+ quoted username
             +:+ ", but expected 1 result")
    end.

(** The debug log lines of the source are not part of the model. *)
Definition searchAndBindUser (p : Provider) (conn : Conn) (username : string)
    (bindFunc : Conn -> string -> M (option error))
  : M (string * string * option error) :=
  bind (connSearch conn (userSearchRequest p username)) (fun r =>
    match r with
    | inr err =>
        ret ("", "", Some ("error searching for user " +:+ quoted username
                           +:+ ": " +:+ err))
    | inl searchResult =>
        match ldap.Entries searchResult with
        | [] => ret ("", "", None)
        | _ :: _ :: _ =>
            ret ("", "",
                 Some ("searching for user " +:+ quoted username
                       +:+ " resulted in "
                       +:+ decimal (List.length (ldap.Entries searchResult))
                       +:+ " search results, but expected 1 result"))
        | [userEntry] =>
            if len (ldap.DN userEntry) =? 0 then
              ret ("", "",
                   Some ("searching for user " +:+ quoted username
                         +:+ " resulted in search result without DN"))
            else
              match getSearchResultAttributeValue p
                      (UsernameAttribute (UserSearch (c p))) userEntry username with
              | inr err => ret ("", "", Some err)
              | inl mappedUsername =>
                  match getSearchResultAttributeValue p
                          (UIDAttribute (UserSearch (c p))) userEntry username with
                  | inr err => ret ("", "", Some err)
                  | inl mappedUID =>
                      bind (bindFunc conn (ldap.DN userEntry)) (fun err =>
                        match err with
                        | Some e =>
                            if strings.HasPrefix e invalidCredentialsErrorPrefix
                            then ret ("", "", None)
                            else
                              ret ("", "",
                                   Some ("error binding for user " +:+ quoted username
                                         +:+ " using provided password against DN "
                                         +:+ quoted (ldap.DN userEntry)
                                         +:+ ": " +:+ e))
                        | None => ret (mappedUsername, mappedUID, None)
                        end)
                  end
              end
        end
    end).

Definition authenticateUserImpl (p : Provider) (ctx : Ctx) (username : string)
    (bindFunc : Conn -> string -> M (option error))
  : M (option Response * bool * option error) :=
  match validateConfig p with
  | Some err => ret (None, false, Some err)
  | None =>
      if len username =? 0 then ret (None, false, None)
      else
        bind (dial p ctx) (fun r =>
          match r with
          | inr err =>
              ret (None, false,
                   Some ("error dialing host " +:+ quoted (Host (c p))
                         +:+ ": " +:+ err))
          | inl conn =>
              deferClose conn
                (bind (connBind conn (BindUsername (c p)) (BindPassword (c p)))
                   (fun err =>
                      match err with
                      | Some e =>
                          ret (None, false,
                               Some ("error binding as "
                                     +:+ quoted (BindUsername (c p))
                                     +:+ " before user search: " +:+ e))
                      | None =>
                          bind (searchAndBindUser p conn username bindFunc)
                            (fun '(mappedUsername, mappedUID, err) =>
                               match err with
                               | Some e => ret (None, false, Some e)
                               | None =>
                                   if (len mappedUsername =? 0)
                                      || (len mappedUID =? 0)
                                   then ret (None, false, None)
                                   else
                                     ret (Some {| User :=
                                                    {| Name := mappedUsername;
                                                       UID := mappedUID;
                                                       Groups := [] |} |},
                                          true, None)
                               end)
                      end))
          end)
  end.

(** The dry run acts as if the end user bind always succeeds. *)
Definition DryRunAuthenticateUser (p : Provider) (ctx : Ctx) (username : string)
  : M (option Response * bool * option error) :=
  let endUserBindFunc := fun (conn : Conn) (foundUserDN : string) =>
                           ret (None : option error) in
  authenticateUserImpl p ctx username endUserBindFunc.

(** Authenticate an end user and return their mapped username, groups
    and UID. *)
Definition AuthenticateUser (p : Provider) (ctx : Ctx) (username password : string)
  : M (option Response * bool * option error) :=
  let endUserBindFunc := fun (conn : Conn) (foundUserDN : string) =>
                           connBind conn foundUserDN password in
  authenticateUserImpl p ctx username endUserBindFunc.
End Provider.

Arguments Conn : clear implicits.
Arguments LDAPDialer : clear implicits.
Arguments ProviderConfig : clear implicits.
Arguments Provider : clear implicits.
Arguments State : clear implicits.
End upstreamldap.

(** ** Package [url]: form values *)

Module url.

(** [url.Values] is [map[string][]string]. *)
Abbreviation Values := (gmap string (list string)).

(** [Values.Get]: the first value of the key, or the empty string. *)
Definition Get (v : Values) (key : string) : string :=
  match v !! key with
  | Some (first :: _) => first
  | _ => ""
  end.

End url.

(** ** Package [oidcapi]: the constants of the supervisor's OIDC API *)

Module oidcapi.

(** Modelled from the spec: the constant [GrantTypeTokenExchange] of
    [generated/latest/apis/supervisor/oidc], whose file is not among the
    sources; the spec gives the grant type of a token exchange request. *)
Definition GrantTypeTokenExchange : string :=
  "urn:ietf:params:oauth:grant-type:token-exchange".

(** Modelled from the spec: the constant [ScopeOpenID], the OpenID scope. *)
Definition ScopeOpenID : string := "openid".

(** Modelled from the spec: the constant [ScopeRequestAudience], the
    request-audience scope. *)
Definition ScopeRequestAudience : string := "pinniped:request-audience".

(** Modelled from the spec: the constant [ScopeUsername], the username
    scope. *)
Definition ScopeUsername : string := "username".

(** Modelled from the spec: the constant [IDTokenClaimUsername], the name of
    the username claim of an ID token. *)
Definition IDTokenClaimUsername : string := "username".

(** Modelled from the spec: the constant [ClientIDPinnipedCLI], the reserved
    CLI client identifier; its value is the one the comment in
    [validateParams] names. *)
Definition ClientIDPinnipedCLI : string := "pinniped-cli".

End oidcapi.

(** ** Package [psession] *)

Module psession.

(** A value stored under [interface{}]: a string, or anything else. *)
Inductive Value :=
| StringValue (s : string)
| OtherValue.

(** Modelled from the spec: the type [PinnipedSession] of
    [internal/psession], whose file is not among the sources.  The handler
    reads one thing from it, the extra claims of its ID-token claims. *)
Record PinnipedSession := { IDTokenClaimsExtra : gmap string Value }.

End psession.

(** ** Package [fosite]: the framework types the handler works with *)

Module fosite.

(** [fosite.Arguments] is [[]string]. *)
Abbreviation Arguments := (list string).

(** [Arguments.ExactOne]: [len(r) == 1 && r[0] == name]. *)
Definition ExactOne (r : Arguments) (name : string) : bool :=
  match r with
  | [only] => String.eqb only name
  | _ => false
  end.

(** The framework's named errors that the handler returns. *)
Inductive ErrorName :=
| UnknownRequest
| InvalidRequest
| InvalidGrant
| UnauthorizedClient
| AccessDenied
| RequestUnauthorized
| ServerError.

(** A Go [error] on the token endpoint: an [RFC6749Error] with its name,
    the hint set on it ([None]: the hint the framework ships it with) and
    the error it wraps, or an error of some other type. *)
#[warnings="-register-all"] Inductive error :=
| RFC6749Error (name : ErrorName) (hint : option string) (cause : option error)
| OtherError (msg : string).

Definition ErrUnknownRequest := RFC6749Error UnknownRequest None None.
Definition ErrInvalidRequest := RFC6749Error InvalidRequest None None.
Definition ErrInvalidGrant := RFC6749Error InvalidGrant None None.
Definition ErrUnauthorizedClient := RFC6749Error UnauthorizedClient None None.
Definition ErrAccessDenied := RFC6749Error AccessDenied None None.
Definition ErrRequestUnauthorized := RFC6749Error RequestUnauthorized None None.
Definition ErrServerError := RFC6749Error ServerError None None.

(** [WithHint] and [WithHintf], the latter applied to the formatted text. *)
Definition WithHint (e : error) (hint : string) : error :=
  match e with
  | RFC6749Error name _ cause => RFC6749Error name (Some hint) cause
  | OtherError msg => OtherError msg
  end.

(** [WithWrap] *)
Definition WithWrap (e : error) (cause : error) : error :=
  match e with
  | RFC6749Error name hint _ => RFC6749Error name hint (Some cause)
  | OtherError msg => OtherError msg
  end.

(** [errors.WithStack] annotates an error with the call stack and leaves
    its identity and text as they are; the stack is not part of the model. *)
Definition WithStack (e : error) : error := e.

Definition nameOf (e : error) : option ErrorName :=
  match e with
  | RFC6749Error name _ _ => Some name
  | OtherError _ => None
  end.

Definition hintOf (e : error) : option string :=
  match e with
  | RFC6749Error _ hint _ => hint
  | OtherError _ => None
  end.

(** [fosite.Session]: a Pinniped session, or a session of another type. *)
Inductive Session :=
| PinnipedSession (s : psession.PinnipedSession)
| OtherSession.

(** [fosite.DefaultClient], by the two fields the handler gets at:
    [ID] and [GrantTypes]. *)
Record Client := { ID : string; ClientGrantTypes : Arguments }.

(** [DefaultClient.GetGrantTypes]: a client that declares no grant type has
    the authorization code grant only. *)
Definition GetGrantTypes (client : Client) : Arguments :=
  match ClientGrantTypes client with
  | [] => ["authorization_code"]
  | declared => declared
  end.

Section Requests.
(** The type of [time.Time]. *)
Context {Time : Type}.

(** [fosite.AccessRequest] with its embedded [Request]; the same record
    renders the [fosite.Requester] read back from storage. *)
Record AccessRequest := {
  GrantTypes : Arguments;
  RequestedAt : Time;
  RequestClient : Client;
  RequestedScope : Arguments;
  GrantedScope : Arguments;
  RequestedAudience : Arguments;
  GrantedAudience : Arguments;
  Form : url.Values;
  RequestSession : Session
}.

(** [fosite.NewAccessRequest(session)]: a fresh request with an empty
    [DefaultClient], stamped with the current time. *)
Definition NewAccessRequest (now : Time) (session : Session) : AccessRequest :=
  {| GrantTypes := [];
     RequestedAt := now;
     RequestClient := {| ID := ""; ClientGrantTypes := [] |};
     RequestedScope := [];
     GrantedScope := [];
     RequestedAudience := [];
     GrantedAudience := [];
     Form := ∅;
     RequestSession := session |}.

(** [r.Client.( *DefaultClient ).ID = id] *)
Definition setClientID (r : AccessRequest) (id : string) : AccessRequest :=
  {| GrantTypes := GrantTypes r;
     RequestedAt := RequestedAt r;
     RequestClient := {| ID := id;
                         ClientGrantTypes := ClientGrantTypes (RequestClient r) |};
     RequestedScope := RequestedScope r;
     GrantedScope := GrantedScope r;
     RequestedAudience := RequestedAudience r;
     GrantedAudience := GrantedAudience r;
     Form := Form r;
     RequestSession := RequestSession r |}.
End Requests.
Arguments AccessRequest : clear implicits.

(** The interface [fosite.AccessResponder], as far as the handler calls it. *)
Class AccessResponder (R : Type) := {
  SetAccessToken : string -> R -> R;
  SetTokenType : string -> R -> R;
  SetExtra : string -> string -> R -> R
}.

(** [fosite.AccessResponse], the framework's responder. *)
Record AccessResponse := {
  Extra : gmap string string;
  AccessToken : string;
  TokenType : string
}.

#[export] Instance AccessResponse_responder : AccessResponder AccessResponse := {|
  SetAccessToken token a :=
    {| Extra := Extra a; AccessToken := token; TokenType := TokenType a |};
  SetTokenType name a :=
    {| Extra := Extra a; AccessToken := AccessToken a; TokenType := name |};
  SetExtra key value a :=
    {| Extra := <[key := value]> (Extra a);
       AccessToken := AccessToken a; TokenType := TokenType a |}
|}.

End fosite.

(** ** Package [oidc]: the token exchange handler *)

Module oidc.
Import gostr fosite.

Definition tokenTypeAccessToken : string :=
  "urn:ietf:params:oauth:token-type:access_token".
Definition tokenTypeJWT : string := "urn:ietf:params:oauth:token-type:jwt".

Record stsParams := { subjectAccessToken : string; requestedAudience : string }.

(** The parameters this handler does not support, in the order the source
    tests them. *)
Definition unsupportedParams : list string :=
  ["resource"; "scope"; "actor_token"; "actor_token_type"].

(** The loop over [unsupportedParams]: the first one sent with a value. *)
Fixpoint firstSent (params : url.Values) (names : list string) : option string :=
  match names with
  | [] => None
  | param :: rest =>
      if negb (String.eqb (url.Get params param) "") then Some param
      else firstSent params rest
  end.

Section Handler.
Context {Ctx Time : Type}.

(** [Arguments.Has] for one item: fosite's membership test, which
    compares case-insensitively. *)
Variable Has : Arguments -> string -> bool.

(** The reading of the clock taken when a request is created. *)
Variable now : Time.

(** The handler's three collaborators, as the methods it calls on them. *)
Record TokenExchangeHandler := {
  GenerateIDToken : Ctx -> AccessRequest Time -> string + error;
  AccessTokenSignature : string -> string;
  ValidateAccessToken : Ctx -> AccessRequest Time -> string -> option error;
  GetAccessTokenSession :
    Ctx -> string -> Session -> AccessRequest Time + error
}.

Definition CanSkipClientAuth (t : TokenExchangeHandler)
    (requester : AccessRequest Time) : bool := false.

Definition CanHandleTokenEndpointRequest (t : TokenExchangeHandler)
    (requester : AccessRequest Time) : bool :=
  ExactOne (GrantTypes requester) oidcapi.GrantTypeTokenExchange.

Definition HandleTokenEndpointRequest (t : TokenExchangeHandler) (ctx : Ctx)
    (requester : AccessRequest Time) : option error :=
  if negb (CanHandleTokenEndpointRequest t requester)
  then Some (WithStack ErrUnknownRequest)
  else None.

Definition validateParams (t : TokenExchangeHandler) (params : url.Values)
  : stsParams + error :=
  let requestedAudience := url.Get params "audience" in
  if String.eqb requestedAudience "" then
    inr (WithHint ErrInvalidRequest "Missing 'audience' parameter.")
  else
    let subjectAccessToken := url.Get params "subject_token" in
    if String.eqb subjectAccessToken "" then
      inr (WithHint ErrInvalidRequest "Missing 'subject_token' parameter.")
    else if negb (String.eqb (url.Get params "subject_token_type")
                    tokenTypeAccessToken) then
      inr (WithHint ErrInvalidRequest
             ("Unsupported 'subject_token_type' parameter value, must be "
              +:+ quoted tokenTypeAccessToken +:+ "."))
    else if negb (String.eqb (url.Get params "requested_token_type")
                    tokenTypeJWT) then
      inr (WithHint ErrInvalidRequest
             ("Unsupported 'requested_token_type' parameter value, must be "
              +:+ quoted tokenTypeJWT +:+ "."))
    else
      match firstSent params unsupportedParams with
      | Some param =>
          inr (WithHint ErrInvalidRequest
                 ("Unsupported parameter " +:+ quoted param +:+ "."))
      | None =>
          if strings.Contains requestedAudience ".pinniped.dev" then
            inr (WithHint ErrInvalidRequest
                   "requested audience cannot contain '.pinniped.dev'")
          else if String.eqb requestedAudience oidcapi.ClientIDPinnipedCLI then
            inr (WithHint ErrInvalidRequest
                   ("requested audience cannot equal '"
                    +:+ oidcapi.ClientIDPinnipedCLI +:+ "'"))
          else
            inl {| subjectAccessToken := subjectAccessToken;
                   requestedAudience := requestedAudience |}
      end.

Definition validateAccessToken (t : TokenExchangeHandler) (ctx : Ctx)
    (requester : AccessRequest Time) (accessToken : string)
  : AccessRequest Time + error :=
  let signature := AccessTokenSignature t accessToken in
  match GetAccessTokenSession t ctx signature (RequestSession requester) with
  | inr err =>
      inr (WithHint (WithWrap ErrRequestUnauthorized err)
             "Invalid 'subject_token' parameter value.")
  | inl originalRequester =>
      match ValidateAccessToken t ctx originalRequester accessToken with
      | Some err => inr (WithStack err)
      | None => inl originalRequester
      end
  end.

Definition validateSession (t : TokenExchangeHandler)
    (requester : AccessRequest Time) : option error :=
  match RequestSession requester with
  | OtherSession => Some (WithHint ErrServerError "Invalid session storage.")
  | PinnipedSession pSession =>
      let noUsername :=
        Some (WithHint ErrAccessDenied
                ("No username found in session. Ensure that the "
                 +:+ quoted oidcapi.ScopeUsername
                 +:+ " scope was requested and granted at the authorization endpoint."))
      in
      match psession.IDTokenClaimsExtra pSession !! oidcapi.IDTokenClaimUsername with
      | Some (psession.StringValue username) =>
          if String.eqb username "" then noUsername else None
      | _ => noUsername
      end
  end.

Definition mintJWT (t : TokenExchangeHandler) (ctx : Ctx)
    (requester : AccessRequest Time) (audience : string) : string + error :=
  let downscoped := NewAccessRequest now (RequestSession requester) in
  let downscoped := setClientID downscoped audience in
  GenerateIDToken t ctx downscoped.

Definition PopulateTokenEndpointResponse {R} `{AccessResponder R}
    (t : TokenExchangeHandler) (ctx : Ctx)
    (requester : AccessRequest Time) (responder : R) : option error * R :=
  match HandleTokenEndpointRequest t ctx requester with
  | Some err => (Some (WithStack err), responder)
  | None =>
  match validateParams t (Form requester) with
  | inr err => (Some (WithStack err), responder)
  | inl params =>
  match validateAccessToken t ctx requester (subjectAccessToken params) with
  | inr err => (Some (WithStack err), responder)
  | inl originalRequester =>
  if negb (String.eqb (ID (RequestClient originalRequester))
             (ID (RequestClient requester))) then
    (Some (WithStack (WithHint ErrInvalidGrant
       "The OAuth 2.0 Client ID from this request does not match the one from the authorize request.")),
     responder)
  else if negb (Has (GetGrantTypes (RequestClient requester))
                  oidcapi.GrantTypeTokenExchange) then
    (Some (WithStack (WithHint ErrUnauthorizedClient
       ("The OAuth 2.0 Client is not allowed to use token exchange grant "
        +:+ quoted oidcapi.GrantTypeTokenExchange +:+ "."))),
     responder)
  else if negb (Has (GrantedScope originalRequester)
                  oidcapi.ScopeRequestAudience) then
    (Some (WithStack (WithHint ErrAccessDenied
       ("Missing the " +:+ quoted oidcapi.ScopeRequestAudience +:+ " scope."))),
     responder)
  else if negb (Has (GrantedScope originalRequester) oidcapi.ScopeOpenID) then
    (Some (WithStack (WithHint ErrAccessDenied
       ("Missing the " +:+ quoted oidcapi.ScopeOpenID +:+ " scope."))),
     responder)
  else
  match validateSession t originalRequester with
  | Some err => (Some (WithStack err), responder)
  | None =>
  match mintJWT t ctx originalRequester (requestedAudience params) with
  | inr err => (Some (WithStack err), responder)
  | inl responseToken =>
      let responder := SetAccessToken responseToken responder in
      let responder := SetTokenType "N_A" responder in
      let responder := SetExtra "issued_token_type" tokenTypeJWT responder in
      (None, responder)
  end end end end end.
End Handler.
Arguments TokenExchangeHandler : clear implicits.
End oidc.

(** ** Vocabulary of the statements *)

Module hostforms.
Import gostr.

(** A host name or port: no colon and no square bracket. *)
Definition plain (s : string) : Prop :=
  has_byte ":" s = false /\ has_byte "[" s = false /\ has_byte "]" s = false.

(** The inside of a bracketed IPv6 literal: no square bracket. *)
Definition unbracketed (s : string) : Prop :=
  has_byte "[" s = false /\ has_byte "]" s = false.

End hostforms.
Export hostforms.

Module filterforms.
Import gostr.

(** A string in which the interpolation marker does not occur. *)
Definition markerFree (s : string) : Prop :=
  strings.Contains s upstreamldap.userSearchFilterInterpolationLocationMarker
  = false.

Definition consHead (c : ascii) (ps : list string) : list string :=
  match ps with
  | p :: rest => String c p :: rest
  | [] => [String c ""]
  end.

(** The text between the occurrences of the marker, from left to right:
    what the spec calls replacing "every" occurrence is joining these
    pieces with the replacement. *)
Fixpoint pieces (s : string) : list string :=
  match s with
  | EmptyString => [""]
  | String c rest =>
      match rest with
      | String d rest' =>
          if Ascii.eqb c "{" && Ascii.eqb d "}" then "" :: pieces rest'
          else consHead c (pieces rest)
      | EmptyString => consHead c (pieces rest)
      end
  end.

(** [s] begins with [p]; [s] ends with [q]. *)
Definition beginsWith (s p : string) : Prop := exists t, s = p +:+ t.
Definition endsWith (s q : string) : Prop := exists t, s = t +:+ q.

End filterforms.
Export filterforms.

Module ldapflow.
Import gostr upstreamldap.

Section Flow.
Context {World Ctx : Type}.
Variable AppendCertsFromPEM : list ascii -> bool.
Variable tlsDialAndStart :
  Ctx -> option (list ascii) -> string -> World -> (Conn World + error) * World.

(** From state [st], the provider dials, binds as the service account and
    gets [res] back from the user search, which leaves state [st']. *)
Definition searched (p : Provider World Ctx) (ctx : Ctx) (username : string)
    (st : State World) (conn : Conn World) (res : ldap.SearchResult)
    (st' : State World) : Prop :=
  exists st1 st2,
    dial AppendCertsFromPEM tlsDialAndStart p ctx st = (inl conn, st1)
    /\ connBind conn (BindUsername (c p)) (BindPassword (c p)) st1 = (None, st2)
    /\ connSearch conn (userSearchRequest p username) st2 = (inl res, st').

(** The search result is the single entry [entry], which has a DN and
    from which both mapped attributes can be read. *)
Definition found (p : Provider World Ctx) (username : string)
    (res : ldap.SearchResult) (entry : ldap.Entry) : Prop :=
  ldap.Entries res = [entry]
  /\ ldap.DN entry <> ""
  /\ (exists v, getSearchResultAttributeValue p
                  (UsernameAttribute (UserSearch (c p))) entry username = inl v)
  /\ (exists v, getSearchResultAttributeValue p
                  (UIDAttribute (UserSearch (c p))) entry username = inl v).

(** The ways [searchAndBindUser] reports "no such user or wrong
    password": no entry, or an end-user bind refused as invalid
    credentials. *)
Definition silentCases (p : Provider World Ctx) (conn : Conn World)
    (username : string)
    (bindFunc : Conn World -> string -> M (option error))
    (st : State World) : Prop :=
  exists res st',
    connSearch conn (userSearchRequest p username) st = (inl res, st')
    /\ (ldap.Entries res = []
        \/ exists entry e st'',
             found p username res entry
             /\ bindFunc conn (ldap.DN entry) st' = (Some e, st'')
             /\ strings.HasPrefix e invalidCredentialsErrorPrefix = true).
End Flow.

End ldapflow.
Export ldapflow.

Module aliasing.
Import gostr upstreamldap.

(** What a caller can do to the bytes of the [CABundle] of a config value
    it holds: [cfg.CABundle[i] = b].  [None] is the panic of an index out
    of range, which a nil slice always gives. *)
Definition storeCABundleByte {World Ctx} (cfg : ProviderConfig World Ctx)
    (i : nat) (b : ascii) (m : Memory) : option Memory :=
  match CABundle cfg with
  | Some bundle => sliceStore m bundle i b
  | None => None
  end.

(** The bytes of the [CABundle] of a config value, read in a memory. *)
Definition bundleBytes {World Ctx} (cfg : ProviderConfig World Ctx)
    (m : Memory) : option (list ascii) :=
  match CABundle cfg with
  | Some bundle => Some (sliceBytes m bundle)
  | None => None
  end.

End aliasing.
Export aliasing.

Module exchange.
Import gostr fosite oidc.

(** The reservation policy of the spec, on the literal bytes: the audience
    contains [.pinniped.dev] somewhere, or is the CLI client's identifier. *)
Definition reserved (audience : string) : Prop :=
  (exists a b, audience = a +:+ ".pinniped.dev" +:+ b)
  \/ audience = oidcapi.ClientIDPinnipedCLI.

(** The parameters other than the audience are as the handler wants them. *)
Definition othersValid (params : url.Values) : Prop :=
  url.Get params "subject_token" <> ""
  /\ url.Get params "subject_token_type" = tokenTypeAccessToken
  /\ url.Get params "requested_token_type" = tokenTypeJWT
  /\ forall name, In name unsupportedParams -> url.Get params name = "".

(** The parameter [name] breaks one of the rules of the spec. *)
Definition offending (params : url.Values) (name : string) : Prop :=
  (name = "audience"
   /\ (url.Get params "audience" = "" \/ reserved (url.Get params "audience")))
  \/ (name = "subject_token" /\ url.Get params "subject_token" = "")
  \/ (name = "subject_token_type"
      /\ url.Get params "subject_token_type" <> tokenTypeAccessToken)
  \/ (name = "requested_token_type"
      /\ url.Get params "requested_token_type" <> tokenTypeJWT)
  \/ (In name unsupportedParams /\ url.Get params name <> "").

Section Checks.
Context {Ctx Time : Type}.
Variable Has : Arguments -> string -> bool.

(** The request passes the steps of the handler that come before the
    scope gate, with [params] and [originalRequester] as their results. *)
Definition passesToScopes (t : TokenExchangeHandler Ctx Time) (ctx : Ctx)
    (requester : AccessRequest Time) (params : stsParams)
    (originalRequester : AccessRequest Time) : Prop :=
  HandleTokenEndpointRequest t ctx requester = None
  /\ validateParams t (Form requester) = inl params
  /\ validateAccessToken t ctx requester (subjectAccessToken params)
     = inl originalRequester
  /\ ID (RequestClient originalRequester) = ID (RequestClient requester)
  /\ Has (GetGrantTypes (RequestClient requester))
       oidcapi.GrantTypeTokenExchange = true.

(** The request passes every check of the handler. *)
Definition passesChecks (t : TokenExchangeHandler Ctx Time) (ctx : Ctx)
    (requester : AccessRequest Time) (params : stsParams)
    (originalRequester : AccessRequest Time) : Prop :=
  passesToScopes t ctx requester params originalRequester
  /\ Has (GrantedScope originalRequester) oidcapi.ScopeRequestAudience = true
  /\ Has (GrantedScope originalRequester) oidcapi.ScopeOpenID = true
  /\ validateSession t originalRequester = None.
End Checks.

(** What the handler does to a responder once it has the token. *)
Definition populated {R} `{AccessResponder R} (token : string) (responder : R) : R :=
  SetExtra "issued_token_type" tokenTypeJWT
    (SetTokenType "N_A" (SetAccessToken token responder)).

(** A responder that records the calls made on it. *)
Inductive ResponderCall :=
| CallSetAccessToken (token : string)
| CallSetTokenType (name : string)
| CallSetExtra (key value : string).

#[export] Instance recorder : AccessResponder (list ResponderCall) := {|
  SetAccessToken token calls := calls ++ [CallSetAccessToken token];
  SetTokenType name calls := calls ++ [CallSetTokenType name];
  SetExtra key value calls := calls ++ [CallSetExtra key value]
|}.

End exchange.
Export exchange.

(** ** Concrete providers and connections, for the examples *)

Module examples.
Import gostr upstreamldap.

(** A provider over a world that is a counter of the calls made on it. *)
Definition config (filter usernameAttribute uidAttribute : string)
    (dialer : option (LDAPDialer nat unit)) : ProviderConfig nat unit :=
  {| ConfigName := "ldap1";
     Host := "ldap.example.com";
     CABundle := None;
     BindUsername := "cn=admin,dc=x";
     BindPassword := "secret";
     UserSearch := {| Base := "ou=users,dc=x";
                      Filter := filter;
                      UsernameAttribute := usernameAttribute;
                      UIDAttribute := uidAttribute |};
     Dialer := dialer |}.

Definition provider (filter usernameAttribute uidAttribute : string)
    (dialer : option (LDAPDialer nat unit)) : Provider nat unit :=
  New (config filter usernameAttribute uidAttribute dialer).

(** A connection double: every bind succeeds except one with the
    password ["wrong"], which the server refuses as invalid credentials;
    every search returns [entries]. *)
Definition conn (entries : list ldap.Entry) : Conn nat :=
  {| Bind := fun username password w =>
               (if String.eqb password "wrong"
                then Some (invalidCredentialsErrorPrefix +:+ " bad password")
                else None, S w);
     Search := fun req w => (inl {| ldap.Entries := entries |}, S w);
     Close := fun w => S w |}.

Definition dialer (entries : list ldap.Entry) : LDAPDialer nat unit :=
  {| Dial := fun ctx hostAndPort w => (inl (conn entries), S w) |}.

Definition alice : ldap.Entry :=
  {| ldap.DN := "cn=alice,ou=users,dc=x";
     ldap.Attributes := [ {| ldap.Name := "cn"; ldap.Values := ["alice"] |};
                          {| ldap.Name := "uid"; ldap.Values := ["1001"] |} ] |}.

(** The layers below [dialTLS], absent in the examples. *)
Definition noPEM (pem : list ascii) : bool := false.
Definition noTLS (ctx : unit) (pool : option (list ascii)) (hostAndPort : string)
    (w : nat) : (Conn nat + error) * nat :=
  (inr "no network", w).

(** A provider that dials by itself and trusts the three-byte bundle at
    address 1. *)
Definition bundled : Provider nat unit :=
  New {| ConfigName := "ldap1";
         Host := "ldap.example.com";
         CABundle := Some {| data := 1%positive; start := 0; count := 3 |};
         BindUsername := "cn=admin,dc=x";
         BindPassword := "secret";
         UserSearch := {| Base := "ou=users,dc=x";
                          Filter := "";
                          UsernameAttribute := "cn";
                          UIDAttribute := "uid" |};
         Dialer := None |}.

Definition pem : list ascii := ["P"; "E"; "M"]%char.

(** A certificate parser that accepts the bundle [pem] and no other, and a
    TLS layer that connects. *)
Definition onlyPEM (bytes : list ascii) : bool := bool_decide (bytes = pem).
Definition alwaysTLS (ctx : unit) (pool : option (list ascii))
    (hostAndPort : string) (w : nat) : (Conn nat + error) * nat :=
  (inl (conn []), S w).

Definition startWith (m : Memory) : State nat :=
  {| mem := m; world := 0%nat; trace := [] |}.

Definition start : State nat := {| mem := ∅; world := 0%nat; trace := [] |}.

End examples.

(** ** A concrete token exchange, for the examples *)

Module exchangeExamples.
Import gostr fosite oidc.

(** Membership by equal bytes: a stand-in for [Arguments.Has] that agrees
    with it on the lower-case names used below. *)
Definition has (r : Arguments) (item : string) : bool :=
  existsb (String.eqb item) r.

Definition form (audience : string) : url.Values :=
  list_to_map [ ("audience", [audience]);
                ("subject_token", ["T"]);
                ("subject_token_type", [tokenTypeAccessToken]);
                ("requested_token_type", [tokenTypeJWT]) ].

Definition cli : Client :=
  {| ID := "pinniped-cli";
     ClientGrantTypes := ["authorization_code"; "refresh_token";
                          oidcapi.GrantTypeTokenExchange] |}.

(** The authorize request the subject token ["T"] was issued for. *)
Definition original (scopes : Arguments) : AccessRequest nat :=
  {| GrantTypes := [];
     RequestedAt := 1%nat;
     RequestClient := cli;
     RequestedScope := scopes;
     GrantedScope := scopes;
     RequestedAudience := [];
     GrantedAudience := [];
     Form := ∅;
     RequestSession :=
       PinnipedSession
         {| psession.IDTokenClaimsExtra :=
              {[ oidcapi.IDTokenClaimUsername := psession.StringValue "alice" ]} |} |}.

Definition allScopes : Arguments :=
  [oidcapi.ScopeOpenID; oidcapi.ScopeRequestAudience; oidcapi.ScopeUsername].

(** The token exchange request. *)
Definition request (audience : string) : AccessRequest nat :=
  {| GrantTypes := [oidcapi.GrantTypeTokenExchange];
     RequestedAt := 2%nat;
     RequestClient := cli;
     RequestedScope := [];
     GrantedScope := [];
     RequestedAudience := [];
     GrantedAudience := [];
     Form := form audience;
     RequestSession := OtherSession |}.

(** A handler whose storage knows the token ["T"], and whose ID-token
    strategy puts the client ID of the request into the token it mints. *)
Definition handler (scopes : Arguments) : TokenExchangeHandler unit nat :=
  {| GenerateIDToken := fun ctx r => inl ("jwt aud=" +:+ ID (RequestClient r));
     AccessTokenSignature := fun token => token;
     ValidateAccessToken := fun ctx r token => None;
     GetAccessTokenSession := fun ctx signature session =>
       if String.eqb signature "T" then inl (original scopes)
       else inr (OtherError "not found") |}.

Definition blank : AccessResponse :=
  {| Extra := ∅; AccessToken := ""; TokenType := "" |}.

End exchangeExamples.

(** ** More vocabulary: the addresses a host may be given as *)

Module addressforms.
Import gostr.

(** The four forms of a configured host: a name, a name and port, a
    bracketed IPv6 literal, and a bracketed IPv6 literal and port. *)
Definition hostform (host : string) : Prop :=
  (host <> "" /\ plain host)
  \/ (exists h port, host = h +:+ ":" +:+ port
                     /\ plain h /\ plain port /\ port <> "")
  \/ (exists a, host = "[" +:+ a +:+ "]"
                /\ unbracketed a /\ has_byte ":" a = true)
  \/ (exists a port, host = "[" +:+ a +:+ "]:" +:+ port
                     /\ unbracketed a /\ has_byte ":" a = true
                     /\ plain port /\ port <> "").

End addressforms.
Export addressforms.

(** ** Package [cmd]: the line filter of the generated command help *)

Module cmd.
Import gostr.

(** The line feed that [fmt.Fprintln] puts behind its operands. *)
Definition newline : string := String (ascii_of_nat 10) "".

(** [containsPrefix]: whether [s] begins with one of [prefixes]. *)
Fixpoint containsPrefix (s : string) (prefixes : list string) : bool :=
  match prefixes with
  | [] => false
  | prefix :: rest =>
      if strings.HasPrefix s prefix then true else containsPrefix s rest
  end.

(** The interface [io.Writer]: [Write] returns the error, if any, and
    leaves the writer in a new state. *)
Class Writer (W : Type) := { Write : string -> W -> option string * W }.

(** [fmt.Fprintln(w, line)]: one [Write] of the line and a line feed. *)
Definition Fprintln {W} `{Writer W} (w : W) (line : string) : option string * W :=
  (Write (line +:+ newline) w).

(** [write].  The reader is given by what a [bufio.Scanner] yields on it:
    its lines, in order, and the error its [Err] reports once [Scan] has
    returned false. *)
Fixpoint write {W} `{Writer W} (w : W) (lines : list string)
    (scanErr : option string) (unwantedPrefixes : list string)
  : option string * W :=
  match lines with
  | [] => (scanErr, w)
  | line :: rest =>
      if negb (containsPrefix line unwantedPrefixes) then
        match Fprintln w line with
        | (Some err, w') => (Some err, w')
        | (None, w') => write w' rest scanErr unwantedPrefixes
        end
      else write w rest scanErr unwantedPrefixes
  end.

(** [bytes.Buffer] as a writer: it appends, and reports no error. *)
#[export] Instance buffer : Writer string := {| Write s contents := (None, contents +:+ s) |}.

End cmd.

(** ** Further concrete values, for the examples *)

Module moreExamples.
Import gostr upstreamldap examples.

(** A provider whose directory holds the one entry [alice]. *)
Definition aliceProvider : Provider nat unit :=
  provider "" "cn" "uid" (Some (dialer [alice])).

(** The state that the dial of an example provider leaves behind [start]. *)
Definition dialed : State nat :=
  {| mem := ∅; world := 1%nat; trace := [EvDial "ldap.example.com:636"] |}.

(** The state after the service-account bind and the search as well. *)
Definition searchedFor (p : Provider nat unit) (username : string) : State nat :=
  {| mem := ∅; world := 3%nat;
     trace := [EvDial "ldap.example.com:636";
               EvBind "cn=admin,dc=x" "secret";
               EvSearch (userSearchRequest p username)] |}.

(** An entry that the directory returns without a DN. *)
Definition nameless : ldap.Entry := {| ldap.DN := ""; ldap.Attributes := [] |}.

(** A token exchange handler whose storage knows no token. *)
Definition forgetful : oidc.TokenExchangeHandler unit nat :=
  {| oidc.GenerateIDToken := fun ctx r => inl "jwt";
     oidc.AccessTokenSignature := fun token => token;
     oidc.ValidateAccessToken := fun ctx r token => None;
     oidc.GetAccessTokenSession := fun ctx signature session =>
       inr (fosite.OtherError "not found") |}.

(** The token exchange request of [exchangeExamples], sent by another
    client. *)
Definition strangerRequest : fosite.AccessRequest nat :=
  {| fosite.GrantTypes := [oidcapi.GrantTypeTokenExchange];
     fosite.RequestedAt := 2%nat;
     fosite.RequestClient :=
       {| fosite.ID := "stranger";
          fosite.ClientGrantTypes := [oidcapi.GrantTypeTokenExchange] |};
     fosite.RequestedScope := [];
     fosite.GrantedScope := [];
     fosite.RequestedAudience := [];
     fosite.GrantedAudience := [];
     fosite.Form := exchangeExamples.form "cluster-a";
     fosite.RequestSession := fosite.OtherSession |}.

(** A response in which another component has set an extra field. *)
Definition prepared : fosite.AccessResponse :=
  {| fosite.Extra := {[ "scope" := "openid" ]};
     fosite.AccessToken := "";
     fosite.TokenType := "" |}.

End moreExamples.

(** * Facts about Go strings *)

Section GoStringFacts.
Import gostr.
#[local] Arguments String.append !s1 s2 : simpl nomatch.

Lemma app_assoc_s (a b c : string) : (a +:+ b) +:+ c = a +:+ b +:+ c.
Proof. induction a as [|x a IH]; simpl; [done|by rewrite IH]. Qed.

Lemma app_nil_r_s (a : string) : a +:+ "" = a.
Proof. induction a as [|x a IH]; simpl; [done|by rewrite IH]. Qed.

Lemma len_app (a b : string) : len (a +:+ b) = len a + len b.
Proof. unfold len. induction a as [|x a IH]; simpl String.length; lia. Qed.

Lemma len_nonneg (a : string) : 0 <= len a.
Proof. unfold len. lia. Qed.

Lemma len_cons (x : ascii) (a : string) : len (String x a) = len a + 1.
Proof. unfold len. simpl String.length. lia. Qed.

Lemma len_zero (a : string) : len a = 0 -> a = "".
Proof.
  destruct a as [|x a]; [done|]. rewrite len_cons. pose proof (len_nonneg a). lia.
Qed.

Lemma substring_zero_all (a : string) :
  String.substring 0 (String.length a) a = a.
Proof. induction a as [|x a IH]; simpl; [done|by rewrite IH]. Qed.

Lemma substring_head (a b : string) :
  String.substring 0 (String.length a) (a +:+ b) = a.
Proof.
  induction a as [|x a IH]; simpl.
  - by destruct b.
  - by rewrite IH.
Qed.

Lemma substring_skip (a s : string) (n m : nat) :
  String.substring (String.length a + n) m (a +:+ s) = String.substring n m s.
Proof. induction a as [|x a IH]; simpl; [done|apply IH]. Qed.

Lemma slice_head (a b : string) : slice (a +:+ b) 0 (len a) = a.
Proof.
  unfold slice, len. rewrite Z.sub_0_r, Nat2Z.id. apply substring_head.
Qed.

Lemma slice_mid (a b c : string) :
  slice (a +:+ b +:+ c) (len a) (len a + len b) = b.
Proof.
  unfold slice, len.
  replace (Z.to_nat (Z.of_nat (String.length a))) with (String.length a + 0)%nat by lia.
  rewrite substring_skip.
  replace (Z.to_nat _) with (String.length b) by lia.
  apply substring_head.
Qed.

Lemma sliceFrom_tail (a b : string) : sliceFrom (a +:+ b) (len a) = b.
Proof.
  unfold sliceFrom. rewrite len_app.
  rewrite <- (app_nil_r_s b) at 1. rewrite slice_mid. done.
Qed.

Lemma sliceFrom_zero (a : string) : sliceFrom a 0 = a.
Proof.
  unfold sliceFrom, slice, len. rewrite Z.sub_0_r, Nat2Z.id.
  apply substring_zero_all.
Qed.

Lemma has_byte_app (c : ascii) (a b : string) :
  has_byte c (a +:+ b) = has_byte c a || has_byte c b.
Proof.
  induction a as [|x a IH]; simpl; [done|]. rewrite IH. by rewrite orb_assoc.
Qed.

Lemma IndexByteString_range (s : string) (c : ascii) :
  -1 <= IndexByteString s c < len s \/ (s = "" /\ IndexByteString s c = -1).
Proof.
  induction s as [|x s IH]; [by right|left]. rewrite len_cons. simpl.
  pose proof (len_nonneg s).
  destruct (Ascii.eqb x c); [lia|].
  destruct (IndexByteString s c <? 0) eqn:E; [lia|].
  apply Z.ltb_ge in E. lia.
Qed.

Lemma IndexByteString_absent (s : string) (c : ascii) :
  has_byte c s = false -> IndexByteString s c = -1.
Proof.
  induction s as [|x s IH]; simpl; [done|].
  intros [Hx Hs]%orb_false_elim. rewrite Hx, (IH Hs). done.
Qed.

Lemma IndexByteString_present (s : string) (c : ascii) :
  has_byte c s = true -> 0 <= IndexByteString s c.
Proof.
  induction s as [|x s IH]; simpl; [done|].
  destruct (Ascii.eqb x c); simpl; [lia|]. intros H. specialize (IH H).
  destruct (IndexByteString s c <? 0) eqn:E; [|lia].
  apply Z.ltb_lt in E. lia.
Qed.

Lemma IndexByteString_first (a b : string) (c : ascii) :
  has_byte c a = false -> IndexByteString (a +:+ String c b) c = len a.
Proof.
  induction a as [|x a IH]; simpl.
  - by rewrite Ascii.eqb_refl.
  - intros [Hx Ha]%orb_false_elim. rewrite Hx, (IH Ha), len_cons.
    pose proof (len_nonneg a).
    destruct (len a <? 0) eqn:E; [apply Z.ltb_lt in E; lia|done].
Qed.

Lemma last_absent (s : string) (c : ascii) :
  has_byte c s = false -> net.last s c = -1.
Proof.
  induction s as [|x s IH]; simpl; [done|].
  intros [Hx Hs]%orb_false_elim. rewrite Hx, (IH Hs). done.
Qed.

Lemma last_final (a r : string) (c : ascii) :
  has_byte c r = false -> net.last (a +:+ String c r) c = len a.
Proof.
  intros Hr. induction a as [|x a IH]; simpl.
  - rewrite (last_absent _ _ Hr). simpl. by rewrite Ascii.eqb_refl.
  - rewrite IH, len_cons. pose proof (len_nonneg a).
    destruct (0 <=? len a) eqn:E; [done|apply Z.leb_gt in E; lia].
Qed.

Lemma at_zero_absent (s : string) (c : ascii) :
  has_byte c s = false -> at_ s 0 <> Some c.
Proof.
  destruct s as [|x s]; simpl; [done|].
  intros [Hx _]%orb_false_elim. unfold at_. simpl. intros [= ->].
  by rewrite Ascii.eqb_refl in Hx.
Qed.

Lemma HasPrefix_byte_absent (s : string) (c : ascii) :
  has_byte c s = false -> strings.HasPrefix s (String c "") = false.
Proof.
  destruct s as [|x s]; [done|]. simpl.
  intros [Hx _]%orb_false_elim. unfold strings.HasPrefix.
  apply andb_false_intro2. unfold slice. simpl. by rewrite Hx.
Qed.

Lemma HasPrefix_app (a b : string) : strings.HasPrefix (a +:+ b) a = true.
Proof.
  unfold strings.HasPrefix. rewrite slice_head, String.eqb_refl, len_app.
  pose proof (len_nonneg b). rewrite andb_true_r. apply Z.leb_le. lia.
Qed.

Lemma HasSuffix_app (a b : string) : strings.HasSuffix (a +:+ b) b = true.
Proof.
  unfold strings.HasSuffix. rewrite len_app.
  replace (len a + len b - len b) with (len a) by lia.
  rewrite sliceFrom_tail, String.eqb_refl.
  pose proof (len_nonneg a). rewrite andb_true_r. apply Z.leb_le. lia.
Qed.

End GoStringFacts.

Section SplitHostPortFacts.
Import gostr.
#[local] Arguments String.append !s1 s2 : simpl nomatch.

Lemma sliceFrom_after_byte (a b : string) (c : ascii) :
  sliceFrom (a +:+ String c b) (len a + 1) = b.
Proof.
  replace (a +:+ String c b) with ((a +:+ String c "") +:+ b)
    by (by rewrite app_assoc_s).
  replace (len a + 1) with (len (a +:+ String c ""))
    by (by rewrite len_app, len_cons).
  apply sliceFrom_tail.
Qed.

Lemma ltb_len_false (a : string) (k : Z) : 0 <= k -> (len a + k <? 0) = false.
Proof. intros. pose proof (len_nonneg a). apply Z.ltb_ge. lia. Qed.

Lemma len_ltb0 (a : string) : (len a <? 0) = false.
Proof. pose proof (len_nonneg a). apply Z.ltb_ge. lia. Qed.

Lemma SplitHostPort_no_colon (h : string) :
  has_byte ":" h = false ->
  net.SplitHostPort h = net.addrErr h net.missingPort.
Proof. intros H. unfold net.SplitHostPort. by rewrite (last_absent _ _ H). Qed.

Lemma SplitHostPort_host_port (h p : string) :
  plain h -> plain p -> net.SplitHostPort (h +:+ ":" +:+ p) = inl (h, p).
Proof.
  intros (Hh1 & Hh2 & Hh3) (Hp1 & Hp2 & Hp3). simpl.
  assert (Hl : has_byte "[" (h +:+ String ":" p) = false)
    by (rewrite has_byte_app; simpl; by rewrite Hh2, Hp2).
  assert (Hr : has_byte "]" (h +:+ String ":" p) = false)
    by (rewrite has_byte_app; simpl; by rewrite Hh3, Hp3).
  unfold net.SplitHostPort. rewrite (last_final _ _ _ Hp1).
  rewrite len_ltb0.
  rewrite bool_decide_eq_false_2 by (by apply at_zero_absent).
  rewrite slice_head, (IndexByteString_absent _ _ Hh1). simpl.
  unfold net.splitTail. rewrite sliceFrom_zero.
  rewrite (IndexByteString_absent _ _ Hl), (IndexByteString_absent _ _ Hr).
  simpl. by rewrite sliceFrom_after_byte.
Qed.

Lemma SplitHostPort_bracket_no_port (a : string) :
  unbracketed a ->
  net.SplitHostPort ("[" +:+ a +:+ "]")
  = net.addrErr ("[" +:+ a +:+ "]") net.missingPort.
Proof.
  intros (Ha1 & Ha2). simpl. unfold net.SplitHostPort.
  destruct (net.last _ _ <? 0); [done|].
  rewrite bool_decide_eq_true_2 by done.
  cbn [IndexByteString]. rewrite (IndexByteString_first _ _ _ Ha2).
  change (Ascii.eqb "[" "]") with false. cbv iota.
  rewrite !len_ltb0, ltb_len_false by lia.
  rewrite len_cons, len_app, len_cons. change (len "") with 0.
  by rewrite Z.add_0_l, Z.eqb_refl.
Qed.

Lemma SplitHostPort_bracket_port (a p : string) :
  unbracketed a -> plain p ->
  net.SplitHostPort ("[" +:+ a +:+ "]:" +:+ p) = inl (a, p).
Proof.
  intros (Ha1 & Ha2) (Hp1 & Hp2 & Hp3). simpl.
  set (hostport := String "[" (a +:+ String "]" (String ":" p))).
  assert (Hlast : net.last hostport ":" = len a + 2).
  { replace hostport with ((String "[" (a +:+ "]")) +:+ String ":" p)
      by (simpl; by rewrite app_assoc_s).
    rewrite (last_final _ _ _ Hp1), len_cons, len_app, len_cons.
    change (len "") with 0. lia. }
  assert (Hend : IndexByteString hostport "]" = len a + 1).
  { unfold hostport. cbn [IndexByteString].
    change (Ascii.eqb "[" "]") with false. cbv iota.
    rewrite (IndexByteString_first _ _ _ Ha2).
    by rewrite len_ltb0. }
  assert (Hlen : len hostport = len a + 3 + len p).
  { unfold hostport. rewrite len_cons, len_app, !len_cons. lia. }
  unfold net.SplitHostPort. fold hostport. rewrite Hlast, Hend, Hlen.
  pose proof (len_nonneg a). pose proof (len_nonneg p).
  rewrite !ltb_len_false by lia.
  rewrite bool_decide_eq_true_2 by done.
  replace (len a + 1 + 1 =? len a + 3 + len p) with false
    by (symmetry; apply Z.eqb_neq; lia).
  replace (len a + 1 + 1 =? len a + 2) with true
    by (symmetry; apply Z.eqb_eq; lia).
  unfold net.splitTail.
  assert (Hfrom1 : sliceFrom hostport 1 = a +:+ String "]" (String ":" p)).
  { change hostport with ("[" +:+ a +:+ String "]" (String ":" p)).
    change 1 with (len "["). apply sliceFrom_tail. }
  assert (Hfromk : sliceFrom hostport (len a + 1 + 1) = String ":" p).
  { replace hostport with ((String "[" a) +:+ String "]" (String ":" p)) by done.
    replace (len a + 1 + 1) with (len (String "[" a) + 1) by (rewrite len_cons; lia).
    apply sliceFrom_after_byte. }
  assert (Hport : sliceFrom hostport (len a + 2 + 1) = p).
  { replace hostport with ((String "[" (a +:+ "]")) +:+ String ":" p)
      by (simpl; by rewrite app_assoc_s).
    replace (len a + 2 + 1) with (len (String "[" (a +:+ "]")) + 1)
      by (rewrite len_cons, len_app, len_cons; change (len "") with 0; lia).
    apply sliceFrom_after_byte. }
  assert (Hhost : slice hostport 1 (len a + 1) = a).
  { change hostport with ("[" +:+ a +:+ String "]" (String ":" p)).
    change 1 with (len "[") at 1. replace (len a + 1) with (len "[" + len a) by (change (len "[") with 1; lia).
    apply slice_mid. }
  rewrite Hfrom1, Hfromk, Hport, Hhost.
  rewrite IndexByteString_absent
    by (rewrite has_byte_app; simpl; by rewrite Ha1, Hp2).
  rewrite IndexByteString_absent by (simpl; by rewrite Hp3).
  done.
Qed.

End SplitHostPortFacts.

(** * Host and port normalization *)

Section HostAndPort.
Import gostr upstreamldap.
#[local] Arguments String.append !s1 s2 : simpl nomatch.

Lemma eqb_empty_false (s : string) : s <> "" -> String.eqb s "" = false.
Proof. intros. by apply String.eqb_neq. Qed.

Lemma JoinHostPort_plain (h p : string) :
  has_byte ":" h = false -> net.JoinHostPort h p = h +:+ ":" +:+ p.
Proof. intros H. unfold net.JoinHostPort. by rewrite (IndexByteString_absent _ _ H). Qed.

Lemma JoinHostPort_colon (a p : string) :
  has_byte ":" a = true -> net.JoinHostPort a p = "[" +:+ a +:+ "]:" +:+ p.
Proof.
  intros H. unfold net.JoinHostPort.
  pose proof (IndexByteString_present _ _ H) as Hi.
  apply Z.leb_le in Hi. by rewrite Hi.
Qed.

Lemma hostAndPort_no_port (h D : string) :
  h <> "" -> D <> "" -> plain h ->
  hostAndPortWithDefaultPort h D = inl (net.JoinHostPort h D).
Proof.
  intros Hh HD (Hh1 & Hh2 & Hh3). unfold hostAndPortWithDefaultPort.
  rewrite (SplitHostPort_no_colon _ Hh1). unfold net.addrErr, net.AddrError_Error.
  cbn [net.Addr net.Err]. rewrite (eqb_empty_false _ Hh).
  replace ("address " +:+ h +:+ ": " +:+ net.missingPort)
    with (("address " +:+ h) +:+ ": missing port in address")
    by (by rewrite app_assoc_s).
  rewrite HasSuffix_app, (eqb_empty_false _ HD).
  by rewrite (HasPrefix_byte_absent _ _ Hh2).
Qed.

Lemma hostAndPort_with_port (h p D : string) :
  plain h -> plain p -> p <> "" ->
  hostAndPortWithDefaultPort (h +:+ ":" +:+ p) D = inl (h +:+ ":" +:+ p).
Proof.
  intros Hh Hp Hne. unfold hostAndPortWithDefaultPort.
  rewrite (SplitHostPort_host_port _ _ Hh Hp). destruct Hh as (Hh1 & Hh2 & Hh3).
  rewrite (eqb_empty_false _ Hne), (HasPrefix_byte_absent _ _ Hh2).
  cbn [negb andb]. by rewrite (JoinHostPort_plain _ _ Hh1).
Qed.

Lemma hostAndPort_bracket_no_port (a D : string) :
  unbracketed a -> D <> "" ->
  hostAndPortWithDefaultPort ("[" +:+ a +:+ "]") D = inl ("[" +:+ a +:+ "]:" +:+ D).
Proof.
  intros Ha HD. unfold hostAndPortWithDefaultPort.
  rewrite (SplitHostPort_bracket_no_port _ Ha).
  unfold net.addrErr, net.AddrError_Error. cbn [net.Addr net.Err].
  change (String.eqb ("[" +:+ a +:+ "]") "") with false. cbv iota.
  replace ("address " +:+ ("[" +:+ a +:+ "]") +:+ ": " +:+ net.missingPort)
    with (("address " +:+ "[" +:+ a +:+ "]") +:+ ": missing port in address")
    by (by rewrite !app_assoc_s).
  rewrite HasSuffix_app, (eqb_empty_false _ HD).
  rewrite (HasPrefix_app "[" (a +:+ "]")).
  replace ("[" +:+ a +:+ "]") with (("[" +:+ a) +:+ "]") at 1
    by (by rewrite app_assoc_s).
  rewrite HasSuffix_app. cbn [negb andb].
  by rewrite !app_assoc_s.
Qed.

Lemma hostAndPort_bracket_with_port (a p D : string) :
  unbracketed a -> has_byte ":" a = true -> plain p -> p <> "" ->
  hostAndPortWithDefaultPort ("[" +:+ a +:+ "]:" +:+ p) D
  = inl ("[" +:+ a +:+ "]:" +:+ p).
Proof.
  intros Ha Hc Hp Hne. unfold hostAndPortWithDefaultPort.
  rewrite (SplitHostPort_bracket_port _ _ Ha Hp). destruct Ha as (Ha1 & Ha2).
  rewrite (eqb_empty_false _ Hne), (HasPrefix_byte_absent _ _ Ha1).
  cbn [negb andb]. by rewrite (JoinHostPort_colon _ _ Hc).
Qed.

(** C8, as amended: for every non-empty default port [D] without colon or
    square bracket, normalization succeeds on each of the four forms and
    yields a string that [net.SplitHostPort] parses.  A host without port
    gets [":" ++ D] appended, which is the standard join; an input with a
    non-empty port is returned as it is; a bracketed IPv6 literal keeps
    its one pair of brackets, with and without port. *)
Theorem hostAndPortWithDefaultPort_forms (D : string) :
  D <> "" -> plain D ->
  (forall h, h <> "" -> plain h ->
     hostAndPortWithDefaultPort h D = inl (h +:+ ":" +:+ D)
     /\ h +:+ ":" +:+ D = net.JoinHostPort h D
     /\ net.SplitHostPort (h +:+ ":" +:+ D) = inl (h, D))
  /\ (forall h p, plain h -> plain p -> p <> "" ->
     hostAndPortWithDefaultPort (h +:+ ":" +:+ p) D = inl (h +:+ ":" +:+ p)
     /\ net.SplitHostPort (h +:+ ":" +:+ p) = inl (h, p))
  /\ (forall a, unbracketed a -> has_byte ":" a = true ->
     hostAndPortWithDefaultPort ("[" +:+ a +:+ "]") D
     = inl ("[" +:+ a +:+ "]:" +:+ D)
     /\ "[" +:+ a +:+ "]:" +:+ D = net.JoinHostPort a D
     /\ net.SplitHostPort ("[" +:+ a +:+ "]:" +:+ D) = inl (a, D))
  /\ (forall a p, unbracketed a -> has_byte ":" a = true -> plain p -> p <> "" ->
     hostAndPortWithDefaultPort ("[" +:+ a +:+ "]:" +:+ p) D
     = inl ("[" +:+ a +:+ "]:" +:+ p)
     /\ net.SplitHostPort ("[" +:+ a +:+ "]:" +:+ p) = inl (a, p)).
Proof.
  intros HD HpD. split; [|split; [|split]].
  - intros h Hh Hp. rewrite (JoinHostPort_plain h D) by apply Hp.
    split; [|split]; [|done|by apply SplitHostPort_host_port].
    rewrite hostAndPort_no_port by done. by rewrite JoinHostPort_plain by apply Hp.
  - intros h p Hh Hp Hne.
    split; [by apply hostAndPort_with_port|by apply SplitHostPort_host_port].
  - intros a Ha Hc. rewrite (JoinHostPort_colon a D) by done.
    split; [|split]; [|done|by apply SplitHostPort_bracket_port].
    by apply hostAndPort_bracket_no_port.
  - intros a p Ha Hc Hp Hne.
    split; [by apply hostAndPort_bracket_with_port
           |by apply SplitHostPort_bracket_port].
Qed.

Lemma hostAndPortWithDefaultPort_forms_witness :
  ("636" <> "" /\ plain "636")
  /\ hostAndPortWithDefaultPort "h" "636" = inl "h:636"
  /\ hostAndPortWithDefaultPort "h:port" "636" = inl "h:port"
  /\ hostAndPortWithDefaultPort "[::1]" "636" = inl "[::1]:636"
  /\ hostAndPortWithDefaultPort "[::1]:port" "636" = inl "[::1]:port".
Proof.
  assert (H636 : "636" <> "") by done.
  assert (P636 : plain "636") by (repeat split; reflexivity).
  destruct (hostAndPortWithDefaultPort_forms "636" H636 P636)
    as (F1 & F2 & F3 & F4).
  split; [by split|]. split; [|split; [|split]].
  - apply (F1 "h"); [done|repeat split; reflexivity].
  - apply (F2 "h" "port"); [repeat split; reflexivity..|done].
  - apply (F3 "::1"); [repeat split; reflexivity|reflexivity].
  - apply (F4 "::1" "port");
      [repeat split; reflexivity|reflexivity|repeat split; reflexivity|done].
Defined.

(** C8, as stated, fails for the empty default port: a host without port
    is returned unchanged, nothing is appended, and the result has no port
    for [net.SplitHostPort] to find. *)
Lemma hostAndPortWithDefaultPort_empty_default :
  hostAndPortWithDefaultPort "h" "" = inl "h"
  /\ net.SplitHostPort "h" = inr {| net.Err := net.missingPort; net.Addr := "h" |}
  /\ hostAndPortWithDefaultPort "[::1]" "" = inl "[::1]"
  /\ net.SplitHostPort "[::1]"
     = inr {| net.Err := net.missingPort; net.Addr := "[::1]" |}.
Proof. repeat split; vm_compute; reflexivity. Qed.

End HostAndPort.

(** * LDAP filter escaping *)

Section Escaping.
Import gostr.

Lemma escapeCount_nonneg (s : string) : 0 <= ldap.escapeCount s.
Proof.
  induction s as [|a s IH]; [done|]. cbn [ldap.escapeCount].
  destruct (ldap.mustEscape a); lia.
Qed.

Lemma escapeBytes_unescaped (s : string) :
  ldap.escapeCount s = 0 -> ldap.escapeBytes s = s.
Proof.
  induction s as [|a s IH]; [done|]. cbn [ldap.escapeCount ldap.escapeBytes].
  pose proof (escapeCount_nonneg s).
  destruct (ldap.mustEscape a); [lia|]. intros H0. rewrite IH; [done|lia].
Qed.

(** The early return of [EscapeFilter] agrees with its copying loop. *)
Lemma EscapeFilter_escapeBytes (s : string) :
  ldap.EscapeFilter s = ldap.escapeBytes s.
Proof.
  unfold ldap.EscapeFilter. destruct (ldap.escapeCount s =? 0) eqn:E; [|done].
  apply Z.eqb_eq in E. by rewrite escapeBytes_unescaped.
Qed.

Lemma hex_digits_plain (a : ascii) :
  ldap.mustEscape (ldap.hexAt (Z.shiftr (Z.of_N (N_of_ascii a)) 4)) = false
  /\ ldap.mustEscape (ldap.hexAt (Z.land (Z.of_N (N_of_ascii a)) 15)) = false.
Proof. destruct a as [[] [] [] [] [] [] [] []]; split; reflexivity. Qed.

Lemma eqb_mustEscape (a c : ascii) :
  ldap.mustEscape a = false -> ldap.mustEscape c = true -> Ascii.eqb a c = false.
Proof.
  intros Ha Hc. apply Ascii.eqb_neq. intros ->. congruence.
Qed.

(** An escaped username holds none of the bytes that an LDAP filter gives a
    meaning to, nor a byte above 0x7f or NUL: the only byte of that kind in
    it is the backslash that starts an escape. *)
Lemma EscapeFilter_safe (s : string) (c : ascii) :
  ldap.mustEscape c = true -> c <> "\"%char ->
  has_byte c (ldap.EscapeFilter s) = false.
Proof.
  intros Hc Hbs. rewrite EscapeFilter_escapeBytes.
  induction s as [|a s IH]; [done|]. cbn [ldap.escapeBytes].
  destruct (ldap.mustEscape a) eqn:Ha; cbn [has_byte].
  - destruct (hex_digits_plain a) as [H1 H2].
    rewrite (eqb_mustEscape _ _ H1 Hc), (eqb_mustEscape _ _ H2 Hc), IH.
    replace (Ascii.eqb "\" c) with false; [done|].
    symmetry. apply Ascii.eqb_neq. congruence.
  - by rewrite (eqb_mustEscape _ _ Ha Hc), IH.
Qed.

End Escaping.

(** * The user search filter *)

Section SearchFilter.
Import gostr upstreamldap.
#[local] Arguments String.append !s1 s2 : simpl nomatch.

Abbreviation marker := userSearchFilterInterpolationLocationMarker.

Lemma Index_ge (s substr : string) : -1 <= strings.Index s substr.
Proof.
  induction s as [|a s IH]; simpl.
  - destruct (strings.HasPrefix "" substr); lia.
  - destruct (strings.HasPrefix (String a s) substr); [lia|].
    destruct (strings.Index s substr <? 0) eqn:E; [|lia].
    apply Z.ltb_lt in E. lia.
Qed.

Lemma HasPrefix_marker (s : string) :
  strings.HasPrefix s marker
  = match s with
    | String c (String d _) => Ascii.eqb c "{" && Ascii.eqb d "}"
    | _ => false
    end.
Proof.
  destruct s as [|c [|d r]]; [done|done|].
  unfold strings.HasPrefix, marker, slice. rewrite !len_cons.
  pose proof (len_nonneg r).
  replace (len "" + 1 + 1 <=? len r + 1 + 1) with true
    by (symmetry; apply Z.leb_le; change (len "") with 0; lia).
  change (len "") with 0. simpl.
  destruct (Ascii.eqb c "{"); [|done]. destruct (Ascii.eqb d "}"); [|done].
  by destruct r.
Qed.

Lemma Index_cons (c : ascii) (s substr : string) :
  strings.Index (String c s) substr
  = if strings.HasPrefix (String c s) substr then 0
    else if strings.Index s substr <? 0 then -1 else strings.Index s substr + 1.
Proof. done. Qed.

Lemma markerFree_cons_inv (c : ascii) (s : string) :
  markerFree (String c s) ->
  strings.HasPrefix (String c s) marker = false /\ markerFree s.
Proof.
  unfold markerFree, strings.Contains. rewrite Index_cons.
  pose proof (Index_ge s marker).
  destruct (strings.HasPrefix (String c s) marker); [done|].
  destruct (strings.Index s marker <? 0) eqn:E.
  - intros _. split; [done|]. apply Z.leb_gt. by apply Z.ltb_lt.
  - intros H1%Z.leb_gt. apply Z.ltb_ge in E. lia.
Qed.

Lemma markerFree_Index (s : string) : markerFree s -> strings.Index s marker = -1.
Proof.
  unfold markerFree, strings.Contains. intros H%Z.leb_gt.
  pose proof (Index_ge s marker). lia.
Qed.

(** The first occurrence of the marker behind a marker-free piece. *)
Lemma Index_after_piece (p rest : string) :
  markerFree p -> strings.Index (p +:+ marker +:+ rest) marker = len p.
Proof.
  induction p as [|c p IH]; intros Hfree.
  - change ("" +:+ marker +:+ rest) with (marker +:+ rest).
    destruct (marker +:+ rest) eqn:E; [done|].
    rewrite Index_cons, <- E, HasPrefix_app. done.
  - apply markerFree_cons_inv in Hfree as [Hpre Hfree].
    change (String c p +:+ marker +:+ rest) with (String c (p +:+ marker +:+ rest)).
    rewrite Index_cons, (IH Hfree), len_ltb0, len_cons.
    replace (strings.HasPrefix (String c (p +:+ marker +:+ rest)) marker)
      with false; [done|].
    symmetry. rewrite HasPrefix_marker in *.
    destruct p as [|d p]; simpl in *; [|done].
    destruct (Ascii.eqb c "{"); done.
Qed.

Lemma countLoop_step (s substr : string) (n : Z) :
  strings.countLoop s substr n
  = if bool_decide (strings.Index s substr = -1) || (len substr <=? 0) then n
    else strings.countLoop
           (sliceFrom s (strings.Index s substr + len substr)) substr (n + 1).
Proof.
  funelim (strings.countLoop s substr n).
  - by rewrite e.
  - rewrite Hgo. done.
Qed.

Lemma concat_cons2 (sep p q : string) (qs : list string) :
  String.concat sep (p :: q :: qs) = p +:+ sep +:+ String.concat sep (q :: qs).
Proof. done. Qed.

Lemma countLoop_pieces (ps : list string) (n : Z) :
  ps <> [] -> Forall markerFree ps ->
  strings.countLoop (String.concat marker ps) marker n
  = n + Z.of_nat (List.length ps) - 1.
Proof.
  revert n. induction ps as [|p [|q qs] IH]; intros n Hne Hfree; [done| |].
  - apply Forall_inv in Hfree. rewrite countLoop_step.
    cbn [String.concat]. rewrite (markerFree_Index _ Hfree).
    rewrite bool_decide_eq_true_2 by done. simpl. lia.
  - rewrite countLoop_step, concat_cons2.
    rewrite (Index_after_piece _ _ (Forall_inv Hfree)).
    pose proof (len_nonneg p).
    rewrite bool_decide_eq_false_2 by lia.
    change (len marker <=? 0) with false. cbn [orb].
    replace (p +:+ marker +:+ String.concat marker (q :: qs))
      with ((p +:+ marker) +:+ String.concat marker (q :: qs))
      by (by rewrite app_assoc_s).
    replace (len p + len marker) with (len (p +:+ marker)) by (by rewrite len_app).
    rewrite sliceFrom_tail, IH; [|done|by eapply Forall_inv_tail].
    cbn [List.length]. lia.
Qed.

Lemma replaceLoop_pieces (new : string) (ps : list string)
    (pre b : string) (first : bool) :
  ps <> [] -> Forall markerFree ps ->
  strings.replaceLoop (List.length ps - 1) first
    (pre +:+ String.concat marker ps) marker new (len pre) b
  = b +:+ String.concat new ps.
Proof.
  revert pre b first.
  induction ps as [|p [|q qs] IH]; intros pre b first Hne Hfree; [done| |].
  - cbn [List.length Nat.sub strings.replaceLoop String.concat].
    by rewrite sliceFrom_tail.
  - replace (List.length (p :: q :: qs) - 1)%nat
      with (S (List.length (q :: qs) - 1)) by (cbn [List.length]; lia).
    cbn [strings.replaceLoop]. change (len marker =? 0) with false. cbv iota.
    rewrite sliceFrom_tail, concat_cons2.
    rewrite (Index_after_piece _ _ (Forall_inv Hfree)).
    rewrite (slice_mid pre p).
    replace (pre +:+ p +:+ marker +:+ String.concat marker (q :: qs))
      with ((pre +:+ p +:+ marker) +:+ String.concat marker (q :: qs))
      by (by rewrite !app_assoc_s).
    replace (len pre + len p + len marker) with (len (pre +:+ p +:+ marker))
      by (rewrite !len_app; lia).
    rewrite IH; [|done|by eapply Forall_inv_tail].
    by rewrite concat_cons2, !app_assoc_s.
Qed.

(** [strings.ReplaceAll] on the marker puts the replacement between the
    marker-free pieces of its argument. *)
Lemma ReplaceAll_pieces (new : string) (ps : list string) :
  ps <> [] -> Forall markerFree ps ->
  strings.ReplaceAll (String.concat marker ps) marker new = String.concat new ps.
Proof.
  intros Hne Hfree. unfold strings.ReplaceAll, strings.Replace.
  change (-1 =? 0) with false. rewrite orb_false_r.
  destruct (String.eqb_spec marker new) as [<-|Hnew]; [done|].
  unfold strings.Count. change (len marker =? 0) with false. cbv iota.
  change (match marker with
          | String c "" => strings.CountString (String.concat marker ps) c
          | _ => strings.countLoop (String.concat marker ps) marker 0
          end) with (strings.countLoop (String.concat marker ps) marker 0).
  rewrite (countLoop_pieces _ _ Hne Hfree). change (-1 <? 0) with true.
  cbn [orb]. destruct ps as [|p [|q qs]]; [done|done|].
  replace (0 + Z.of_nat (List.length (p :: q :: qs)) - 1 =? 0) with false
    by (symmetry; apply Z.eqb_neq; cbn [List.length]; lia).
  replace (Z.to_nat (0 + Z.of_nat (List.length (p :: q :: qs)) - 1))
    with (List.length (p :: q :: qs) - 1)%nat by lia.
  change (String.concat marker (p :: q :: qs))
    with ("" +:+ String.concat marker (p :: q :: qs)).
  change 0 with (len "") at 1.
  by rewrite (replaceLoop_pieces new (p :: q :: qs) "" "" true).
Qed.

Lemma string_ind2 (P : string -> Prop) :
  P "" -> (forall c, P (String c "")) ->
  (forall c d r, P r -> P (String d r) -> P (String c (String d r))) ->
  forall s, P s.
Proof.
  intros H0 H1 H2 s.
  assert (H : P s /\ forall c, P (String c s)).
  { induction s as [|d r [IHr IHdr]]; [by split|].
    split; [apply IHdr|]. intros c. apply H2; [done|apply IHdr]. }
  apply H.
Qed.

Lemma pieces_nonempty (s : string) : pieces s <> [].
Proof.
  induction s as [|c s IH]; [done|]. simpl.
  destruct s as [|d r]; [by destruct (pieces "")|].
  destruct (Ascii.eqb c "{" && Ascii.eqb d "}"); [done|].
  by destruct (pieces (String d r)).
Qed.

Lemma pieces_cons2 (c d : ascii) (r : string) :
  pieces (String c (String d r))
  = if Ascii.eqb c "{" && Ascii.eqb d "}" then "" :: pieces r
    else consHead c (pieces (String d r)).
Proof. done. Qed.

Lemma concat_consHead (sep : string) (c : ascii) (ps : list string) :
  ps <> [] -> String.concat sep (consHead c ps) = String c (String.concat sep ps).
Proof. by destruct ps as [|p [|q qs]]. Qed.

Lemma concat_empty_cons (sep : string) (ps : list string) :
  ps <> [] -> String.concat sep ("" :: ps) = sep +:+ String.concat sep ps.
Proof. by destruct ps. Qed.

(** The pieces, joined again with the marker, are the string. *)
Lemma pieces_concat (s : string) : String.concat marker (pieces s) = s.
Proof.
  induction s as [|c|c d r IHr IHdr] using string_ind2; [done|done|].
  rewrite pieces_cons2. destruct (Ascii.eqb c "{" && Ascii.eqb d "}") eqn:E.
  - apply andb_prop in E as [->%Ascii.eqb_eq ->%Ascii.eqb_eq].
    rewrite concat_empty_cons by apply pieces_nonempty. by rewrite IHr.
  - rewrite concat_consHead by apply pieces_nonempty. by rewrite IHdr.
Qed.

Lemma markerFree_cons (c : ascii) (s : string) :
  strings.HasPrefix (String c s) marker = false -> markerFree s ->
  markerFree (String c s).
Proof.
  unfold markerFree, strings.Contains. intros Hpre Hs%Z.leb_gt.
  rewrite Index_cons, Hpre. apply Z.ltb_lt in Hs. by rewrite Hs.
Qed.

Lemma pieces_head (d : ascii) (r : string) :
  exists p rest, pieces (String d r) = p :: rest
                 /\ (p = "" \/ exists p', p = String d p').
Proof.
  cbn [pieces]. destruct r as [|e r'].
  - simpl. eauto 6.
  - destruct (Ascii.eqb d "{" && Ascii.eqb e "}"); [eauto|].
    pose proof (pieces_nonempty (String e r')) as Hne.
    destruct (pieces (String e r')) as [|p rest]; [done|]. simpl. eauto 6.
Qed.

(** No piece contains the marker. *)
Lemma pieces_free (s : string) : Forall markerFree (pieces s).
Proof.
  induction s as [|c|c d r IHr IHdr] using string_ind2.
  - by repeat constructor.
  - by repeat constructor.
  - rewrite pieces_cons2. destruct (Ascii.eqb c "{" && Ascii.eqb d "}") eqn:E.
    + by constructor.
    + destruct (pieces_head d r) as (p & rest & Hp & Hhead).
      rewrite Hp in *. cbn [consHead].
      apply Forall_cons in IHdr as [Hfree Hrest]. constructor; [|done].
      apply markerFree_cons; [|done]. rewrite HasPrefix_marker.
      destruct Hhead as [->|[p' ->]]; [done|done].
Qed.

Lemma substring_split (s : string) (n : nat) :
  (n <= String.length s)%nat ->
  s = String.substring 0 n s +:+ String.substring n (String.length s - n) s.
Proof.
  revert n. induction s as [|c s IH]; intros [|n] Hn; simpl in *; try lia.
  - done.
  - by rewrite substring_zero_all.
  - f_equal. apply IH. lia.
Qed.

Lemma HasPrefix_beginsWith (s p : string) :
  strings.HasPrefix s p = true <-> beginsWith s p.
Proof.
  split.
  - unfold strings.HasPrefix. intros [Hlen Heq%String.eqb_eq]%andb_prop.
    apply Z.leb_le in Hlen. unfold len in Hlen.
    exists (String.substring (String.length p) (String.length s - String.length p) s).
    rewrite <- Heq at 1. unfold slice, len.
    rewrite Z.sub_0_r, Nat2Z.id. change (Z.to_nat 0) with 0%nat.
    apply substring_split. lia.
  - intros [t ->]. apply HasPrefix_app.
Qed.

Lemma HasSuffix_endsWith (s q : string) :
  strings.HasSuffix s q = true <-> endsWith s q.
Proof.
  split.
  - unfold strings.HasSuffix. intros [Hlen Heq%String.eqb_eq]%andb_prop.
    apply Z.leb_le in Hlen. unfold len in Hlen.
    exists (String.substring 0 (String.length s - String.length q) s).
    rewrite <- Heq at 2. unfold sliceFrom, slice, len.
    replace (Z.to_nat (Z.of_nat (String.length s) - Z.of_nat (String.length q)))
      with (String.length s - String.length q)%nat by lia.
    replace (Z.to_nat (Z.of_nat (String.length s)
                       - (Z.of_nat (String.length s) - Z.of_nat (String.length q))))
      with (String.length s - (String.length s - String.length q))%nat by lia.
    apply substring_split. lia.
  - intros [t ->]. apply HasSuffix_app.
Qed.

Context {World Ctx : Type}.
Implicit Types p : Provider World Ctx.

(** C6: with an empty configured Filter the search filter is
    ["(" ++ UsernameAttribute ++ "=" ++ escape(U) ++ ")"]; otherwise it is
    the configured Filter with every occurrence of the marker replaced by
    the escaped username (the marker-free pieces of the Filter joined by
    it), as it is when that already begins with ["("] and ends with [")"],
    and wrapped in parentheses when not. *)
Theorem userSearchFilter_spec p (U : string) :
  let cfg := UserSearch (c p) in
  (Filter cfg = "" ->
   userSearchFilter p U
   = "(" +:+ UsernameAttribute cfg +:+ "=" +:+ ldap.EscapeFilter U +:+ ")")
  /\ (Filter cfg <> "" ->
      (exists ps, Forall markerFree ps /\ Filter cfg = String.concat marker ps)
      /\ forall ps,
          Forall markerFree ps -> Filter cfg = String.concat marker ps ->
          let f := String.concat (ldap.EscapeFilter U) ps in
          (beginsWith f "(" /\ endsWith f ")" -> userSearchFilter p U = f)
          /\ (~ (beginsWith f "(" /\ endsWith f ")") ->
              userSearchFilter p U = "(" +:+ f +:+ ")")).
Proof.
  intros cfg. split.
  - intros Hempty. unfold userSearchFilter. fold cfg. by rewrite Hempty.
  - intros Hne. split.
    { exists (pieces (Filter cfg)). split; [apply pieces_free|].
      by rewrite pieces_concat. }
    intros ps Hfree Hps f.
    assert (Hps_ne : ps <> []) by (intros ->; by apply Hne).
    assert (Hlen : (len (Filter cfg) =? 0) = false).
    { apply Z.eqb_neq. intros H0. by apply Hne, len_zero. }
    assert (Hsub : strings.ReplaceAll (Filter cfg) marker (ldap.EscapeFilter U) = f).
    { rewrite Hps. by apply ReplaceAll_pieces. }
    unfold userSearchFilter, escapeUsernameForSearchFilter. fold cfg.
    rewrite Hlen, Hsub. split.
    + intros [Hb%HasPrefix_beginsWith He%HasSuffix_endsWith]. by rewrite Hb, He.
    + intros Hnot.
      destruct (strings.HasPrefix f "(") eqn:Hb; [|done].
      destruct (strings.HasSuffix f ")") eqn:He; [|done].
      exfalso. apply Hnot.
      split; [by apply HasPrefix_beginsWith|by apply HasSuffix_endsWith].
Qed.

End SearchFilter.

Section SearchFilterExamples.
Import gostr upstreamldap examples.

Lemma userSearchFilter_spec_witness :
  userSearchFilter (provider "" "cn" "uid" None) "alice" = "(cn=alice)"
  /\ userSearchFilter (provider "mail={}" "dn" "uid" None) "a@x" = "(mail=a@x)"
  /\ userSearchFilter (provider "(&(cn={})(uid={}))" "cn" "uid" None) "b*"
     = "(&(cn=b\2a)(uid=b\2a))".
Proof.
  split; [|split].
  - apply (proj1 (userSearchFilter_spec (provider "" "cn" "uid" None) "alice")).
    reflexivity.
  - destruct (proj2 (userSearchFilter_spec
                       (provider "mail={}" "dn" "uid" None) "a@x")) as [_ H];
      [done|].
    destruct (H ["mail="; ""]) as [_ H2];
      [repeat constructor; reflexivity|reflexivity|].
    apply H2. intros [[t Ht] _]. discriminate Ht.
  - destruct (proj2 (userSearchFilter_spec
                       (provider "(&(cn={})(uid={}))" "cn" "uid" None) "b*"))
      as [_ H]; [done|].
    destruct (H ["(&(cn="; ")(uid="; "))"]) as [H1 _];
      [repeat constructor; reflexivity|reflexivity|].
    apply H1. split; [by exists "&(cn=b\2a)(uid=b\2a))"|by exists "(&(cn=b\2a)(uid=b\2a)"].
Defined.

End SearchFilterExamples.

(** * The provider's authentication path *)

Section Authenticate.
Import gostr upstreamldap.
Context {World Ctx : Type}.
Variable AppendCertsFromPEM : list ascii -> bool.
Variable tlsDialAndStart :
  Ctx -> option (list ascii) -> string -> World -> (Conn World + error) * World.
Implicit Types (p : Provider World Ctx) (st : State World) (conn : Conn World).

Abbreviation dial' := (dial AppendCertsFromPEM tlsDialAndStart).
Abbreviation authenticateUserImpl' :=
  (authenticateUserImpl AppendCertsFromPEM tlsDialAndStart).
Abbreviation searched' := (searched AppendCertsFromPEM tlsDialAndStart).

Lemma deferClose_fst {A} conn (body : M A) st :
  fst (deferClose conn body st) = fst (body st).
Proof.
  unfold deferClose, bind, connClose, call, ret. by destruct (body st).
Qed.

Lemma attribute_value_nonempty p name entry username v :
  ldap.DN entry <> "" ->
  getSearchResultAttributeValue p name entry username = inl v -> v <> "".
Proof.
  intros HDN. unfold getSearchResultAttributeValue.
  destruct (String.eqb name distinguishedNameAttributeName); [by intros [= <-]|].
  destruct (ldap.GetAttributeValues _ _) as [|a [|b l]]; [done| |done].
  destruct (len a =? 0) eqn:E; [done|]. intros [= <-] ->. done.
Qed.

Lemma len_eqb_empty (s : string) : (len s =? 0) = true <-> s = "".
Proof.
  split; [intros H%Z.eqb_eq; by apply len_zero|by intros ->].
Qed.

Lemma searchAndBindUser_ok p conn username bindFunc st mu mi stf :
  searchAndBindUser p conn username bindFunc st = ((mu, mi, None), stf) ->
  (mu = "" /\ mi = "" /\ silentCases p conn username bindFunc st)
  \/ (mu <> "" /\ mi <> "").
Proof.
  unfold searchAndBindUser, bind, ret, silentCases, found. intros H.
  destruct (connSearch conn _ st) as [[res|err] st1] eqn:Hs; [|done].
  destruct (ldap.Entries res) as [|entry [|e2 l]] eqn:HE; [|..|done].
  { injection H as <- <- _. left. eauto 10. }
  destruct (len (ldap.DN entry) =? 0) eqn:HDN; [done|].
  assert (ldap.DN entry <> "") by (intros E; by rewrite E in HDN).
  destruct (getSearchResultAttributeValue p (UsernameAttribute _) _ _)
    as [name|] eqn:Hn; [|done].
  destruct (getSearchResultAttributeValue p (UIDAttribute _) _ _)
    as [uid|] eqn:Hu; [|done].
  destruct (bindFunc conn (ldap.DN entry) st1) as [[e|] st2] eqn:Hb.
  - destruct (strings.HasPrefix e _) eqn:Hp; [|done].
    injection H as <- <- _. left. split; [done|]. split; [done|].
    exists res, st1. split; [done|]. right. exists entry, e, st2. eauto 10.
  - injection H as <- <- _. right.
    split; by eapply attribute_value_nonempty.
Qed.

Lemma searchAndBindUser_silent p conn username bindFunc st :
  silentCases p conn username bindFunc st ->
  exists stf, searchAndBindUser p conn username bindFunc st = (("", "", None), stf).
Proof.
  unfold searchAndBindUser, bind, ret, silentCases, found.
  intros (res & st1 & Hs & Hcases). rewrite Hs.
  destruct Hcases as [->|(entry & e & st2 & (-> & HDN & [n Hn] & [u Hu]) & Hb & Hp)];
    [eauto|].
  replace (len (ldap.DN entry) =? 0) with false
    by (symmetry; apply not_true_iff_false; by rewrite len_eqb_empty).
  rewrite Hn, Hu, Hb, Hp. eauto.
Qed.

(** More than one entry is an error, whatever the end-user bind would do. *)
Lemma searchAndBindUser_ambiguous p conn username bindFunc st res st' :
  connSearch conn (userSearchRequest p username) st = (inl res, st') ->
  (2 <= List.length (ldap.Entries res))%nat ->
  searchAndBindUser p conn username bindFunc st
  = (("", "", Some ("searching for user " +:+ quoted username
                    +:+ " resulted in "
                    +:+ decimal (List.length (ldap.Entries res))
                    +:+ " search results, but expected 1 result")), st').
Proof.
  intros Hs Hlen. unfold searchAndBindUser, bind, ret. rewrite Hs.
  destruct (ldap.Entries res) as [|e1 [|e2 l]]; simpl in Hlen; [lia|lia|done].
Qed.

Lemma authenticateUserImpl_silent p ctx username bindFunc st :
  validateConfig p = None ->
  fst (authenticateUserImpl' p ctx username bindFunc st) = (None, false, None)
  <-> (username = ""
       \/ exists conn st1 st2,
            dial' p ctx st = (inl conn, st1)
            /\ connBind conn (BindUsername (c p)) (BindPassword (c p)) st1
               = (None, st2)
            /\ silentCases p conn username bindFunc st2).
Proof.
  intros Hvalid. unfold authenticateUserImpl. rewrite Hvalid.
  destruct (len username =? 0) eqn:Hu.
  { apply len_eqb_empty in Hu. split; [by left|done]. }
  assert (username <> "") by (intros E; by rewrite E in Hu).
  unfold bind at 1.
  destruct (dial' p ctx st) as [[conn|err] st1] eqn:Hdial.
  2: { split; [done|]. intros [?|(? & ? & ? & [=] & _)]; done. }
  rewrite deferClose_fst. unfold bind at 1.
  destruct (connBind conn _ _ st1) as [[e|] st2] eqn:Hbind.
  { split; [done|]. intros [?|(? & ? & ? & [= <- <-] & Hb & _)]; [done|].
    rewrite Hbind in Hb. done. }
  unfold bind.
  destruct (searchAndBindUser p conn username bindFunc st2)
    as [[[mu mi] [e|]] st3] eqn:Hsb.
  { split; [done|]. intros [?|(? & ? & ? & [= <- <-] & Hb & Hc)]; [done|].
    rewrite Hbind in Hb. injection Hb as <-.
    apply searchAndBindUser_silent in Hc as [stf Hc]. rewrite Hsb in Hc. done. }
  destruct (searchAndBindUser_ok _ _ _ _ _ _ _ _ Hsb) as [(-> & -> & Hc)|[Hmu Hmi]].
  - split; [|done]. intros _. right. eauto 10.
  - replace (len mu =? 0) with false
      by (symmetry; apply not_true_iff_false; by rewrite len_eqb_empty).
    replace (len mi =? 0) with false
      by (symmetry; apply not_true_iff_false; by rewrite len_eqb_empty).
    split; [done|]. intros [?|(? & ? & ? & [= <- <-] & Hb & Hc)]; [done|].
    rewrite Hbind in Hb. injection Hb as <-.
    apply searchAndBindUser_silent in Hc as [stf Hc]. rewrite Hsb in Hc.
    injection Hc as -> _. done.
Qed.

Lemma authenticateUserImpl_ambiguous p ctx username bindFunc st conn res st' :
  validateConfig p = None -> username <> "" ->
  searched' p ctx username st conn res st' ->
  (2 <= List.length (ldap.Entries res))%nat ->
  fst (authenticateUserImpl' p ctx username bindFunc st)
  = (None, false,
     Some ("searching for user " +:+ quoted username
           +:+ " resulted in "
           +:+ decimal (List.length (ldap.Entries res))
           +:+ " search results, but expected 1 result")).
Proof.
  intros Hvalid Hu (st1 & st2 & Hdial & Hbind & Hs) Hlen.
  unfold authenticateUserImpl. rewrite Hvalid.
  replace (len username =? 0) with false
    by (symmetry; apply not_true_iff_false; by rewrite len_eqb_empty).
  unfold bind at 1. rewrite Hdial, deferClose_fst.
  unfold bind at 1. rewrite Hbind. unfold bind.
  by rewrite (searchAndBindUser_ambiguous _ _ _ _ _ _ _ Hs Hlen).
Qed.

Abbreviation AuthenticateUser' :=
  (AuthenticateUser AppendCertsFromPEM tlsDialAndStart).
Abbreviation DryRunAuthenticateUser' :=
  (DryRunAuthenticateUser AppendCertsFromPEM tlsDialAndStart).
Abbreviation TestConnection' :=
  (TestConnection AppendCertsFromPEM tlsDialAndStart).

(** C5: with a valid config, [AuthenticateUser] and
    [DryRunAuthenticateUser] return [(nil, false, nil)] exactly when the
    username is empty, when the user search returns no entry, or when the
    end-user bind fails with a message that begins with the LDAP result
    code 49 "Invalid Credentials" prefix (the dry run never binds as the end
    user, so only the first two apply to it); a search that returns two or
    more entries makes both return an error. *)
Theorem authenticate_silent_failures p ctx username password st :
  validateConfig p = None ->
  (fst (AuthenticateUser' p ctx username password st) = (None, false, None)
   <-> (username = ""
        \/ (exists conn res st',
              searched' p ctx username st conn res st'
              /\ ldap.Entries res = [])
        \/ (exists conn res st' entry e st'',
              searched' p ctx username st conn res st'
              /\ found p username res entry
              /\ connBind conn (ldap.DN entry) password st' = (Some e, st'')
              /\ strings.HasPrefix e invalidCredentialsErrorPrefix = true)))
  /\ (fst (DryRunAuthenticateUser' p ctx username st) = (None, false, None)
      <-> (username = ""
           \/ (exists conn res st',
                 searched' p ctx username st conn res st'
                 /\ ldap.Entries res = [])))
  /\ (forall conn res st',
        username <> "" ->
        searched' p ctx username st conn res st' ->
        (2 <= List.length (ldap.Entries res))%nat ->
        exists err,
          fst (AuthenticateUser' p ctx username password st)
          = (None, false, Some err)
          /\ fst (DryRunAuthenticateUser' p ctx username st)
             = (None, false, Some err)).
Proof.
  intros Hvalid. unfold AuthenticateUser, DryRunAuthenticateUser.
  split; [|split].
  - rewrite (authenticateUserImpl_silent _ _ _ _ _ Hvalid).
    unfold searched, silentCases. split.
    + intros [?|(conn & st1 & st2 & Hd & Hb & res & st3 & Hs & Hcase)];
        [by left|right].
      destruct Hcase as [HE|(entry & e & st4 & Hf & Hbind & Hp)].
      * left. exists conn, res, st3. eauto 10.
      * right. exists conn, res, st3, entry, e, st4. eauto 10.
    + intros [?|[(conn & res & st3 & (st1 & st2 & Hd & Hb & Hs) & HE)
                |(conn & res & st3 & entry & e & st4
                  & (st1 & st2 & Hd & Hb & Hs) & Hf & Hbind & Hp)]];
        [by left|right..].
      * exists conn, st1, st2. eauto 10.
      * exists conn, st1, st2. split; [done|]. split; [done|].
        exists res, st3. split; [done|]. right. eauto 10.
  - rewrite (authenticateUserImpl_silent _ _ _ _ _ Hvalid).
    unfold searched, silentCases. split.
    + intros [?|(conn & st1 & st2 & Hd & Hb & res & st3 & Hs & Hcase)];
        [by left|right].
      destruct Hcase as [HE|(entry & e & st4 & Hf & Hbind & Hp)]; [|done].
      exists conn, res, st3. eauto 10.
    + intros [?|(conn & res & st3 & (st1 & st2 & Hd & Hb & Hs) & HE)];
        [by left|right].
      exists conn, st1, st2. eauto 10.
  - intros conn res st' Hu Hs Hlen. eexists. split.
    + by eapply authenticateUserImpl_ambiguous.
    + by eapply authenticateUserImpl_ambiguous.
Qed.

(** C7: a config with [UsernameAttribute] ["dn"] and an empty [Filter]
    makes [AuthenticateUser], [DryRunAuthenticateUser] and
    [TestConnection] return the config error and leave the state as it
    was, the world untouched and no dial or bind in the trace, for every
    context, username and password; every other config passes
    [validateConfig]. *)
Theorem config_error_before_network p ctx username password st :
  (UsernameAttribute (UserSearch (c p)) = "dn"
   /\ Filter (UserSearch (c p)) = "" ->
   exists err,
     validateConfig p = Some err
     /\ AuthenticateUser' p ctx username password st = ((None, false, Some err), st)
     /\ DryRunAuthenticateUser' p ctx username st = ((None, false, Some err), st)
     /\ TestConnection' p ctx st = (Some err, st))
  /\ (~ (UsernameAttribute (UserSearch (c p)) = "dn"
         /\ Filter (UserSearch (c p)) = "") ->
      validateConfig p = None).
Proof.
  split.
  - intros [Hattr Hfilter]. eexists.
    assert (Hv : validateConfig p
                 = Some ("must specify UserSearch Filter when UserSearch UsernameAttribute is "
                         +:+ quoted "dn")).
    { unfold validateConfig. by rewrite Hattr, Hfilter. }
    split; [exact Hv|].
    unfold AuthenticateUser, DryRunAuthenticateUser, authenticateUserImpl,
      TestConnection.
    by rewrite Hv.
  - intros Hnot. unfold validateConfig.
    destruct (String.eqb_spec (UsernameAttribute (UserSearch (c p)))
                distinguishedNameAttributeName) as [Hattr|]; [|done].
    destruct (len (Filter (UserSearch (c p))) =? 0) eqn:Hlen; [|done].
    exfalso. apply Hnot. split; [done|]. by apply len_eqb_empty.
Qed.

End Authenticate.

Section AuthenticateExamples.
Import gostr upstreamldap examples.

Lemma authenticate_silent_failures_witness :
  validateConfig (provider "" "cn" "uid" (Some (dialer []))) = None
  /\ fst (AuthenticateUser noPEM noTLS
            (provider "" "cn" "uid" (Some (dialer []))) tt "nobody" "pw" start)
     = (None, false, None)
  /\ fst (AuthenticateUser noPEM noTLS
            (provider "" "cn" "uid" (Some (dialer [alice]))) tt "alice" "wrong" start)
     = (None, false, None)
  /\ fst (AuthenticateUser noPEM noTLS
            (provider "" "cn" "uid" (Some (dialer [alice; alice]))) tt "alice" "pw" start)
     = (None, false,
        Some ("searching for user " +:+ quoted "alice"
              +:+ " resulted in 2 search results, but expected 1 result")).
Proof.
  split; [reflexivity|]. split; [|split].
  - apply (proj1 (authenticate_silent_failures noPEM noTLS
                    (provider "" "cn" "uid" (Some (dialer []))) tt "nobody" "pw"
                    start eq_refl)).
    right; left. exists (conn []), {| ldap.Entries := [] |}. eexists.
    split; [|reflexivity]. do 2 eexists. split; [|split]; reflexivity.
  - apply (proj1 (authenticate_silent_failures noPEM noTLS
                    (provider "" "cn" "uid" (Some (dialer [alice]))) tt "alice"
                    "wrong" start eq_refl)).
    right; right. exists (conn [alice]), {| ldap.Entries := [alice] |}.
    eexists. exists alice. do 2 eexists.
    split; [do 2 eexists; split; [|split]; reflexivity|].
    split; [|split; reflexivity].
    split; [reflexivity|]. split; [done|]. split; eexists; reflexivity.
  - destruct (proj2 (proj2 (authenticate_silent_failures noPEM noTLS
                    (provider "" "cn" "uid" (Some (dialer [alice; alice]))) tt
                    "alice" "pw" start eq_refl))
                (conn [alice; alice]) {| ldap.Entries := [alice; alice] |}
                {| mem := ∅; world := 3%nat;
                   trace := [EvDial "ldap.example.com:636";
                             EvBind "cn=admin,dc=x" "secret";
                             EvSearch (userSearchRequest
                                         (provider "" "cn" "uid"
                                            (Some (dialer [alice; alice])))
                                         "alice")] |})
      as (err & Ha & _).
    + done.
    + do 2 eexists. split; [|split]; reflexivity.
    + simpl. lia.
    + rewrite Ha. f_equal. f_equal. vm_compute in Ha. by injection Ha as <-.
Defined.

Lemma config_error_before_network_witness :
  AuthenticateUser noPEM noTLS
    (provider "" "dn" "uid" (Some (dialer [alice]))) tt "alice" "pw" start
  = ((None, false,
      Some ("must specify UserSearch Filter when UserSearch UsernameAttribute is "
            +:+ quoted "dn")), start)
  /\ validateConfig (provider "(mail={})" "dn" "uid" (Some (dialer [alice]))) = None.
Proof.
  split.
  - destruct (proj1 (config_error_before_network noPEM noTLS
                       (provider "" "dn" "uid" (Some (dialer [alice]))) tt "alice"
                       "pw" start))
      as (err & Hv & Ha & _); [by split|].
    rewrite Ha. vm_compute in Hv. by injection Hv as <-.
  - apply (proj2 (config_error_before_network noPEM noTLS
                    (provider "(mail={})" "dn" "uid" (Some (dialer [alice]))) tt
                    "" "" start)).
    intros [_ Hf]. discriminate Hf.
Defined.

End AuthenticateExamples.

(** * The config a provider hands out *)

Section ConfigAliasing.
Import gostr upstreamldap examples.

(** [GetConfig] returns the provider's struct by value: every field of the
    copy, the slice header of [CABundle] included, is the caller's own. *)
Lemma GetConfig_New {World Ctx} (config : ProviderConfig World Ctx) :
  GetConfig (New config) = config.
Proof. done. Qed.

(** C9, at the failing input: the copy's [CABundle] points at the same byte
    array as the provider's.  A store through the copy changes the bytes
    that the provider's own config denotes, and with them the result of
    [TestConnection]: before the store the bundle parses and the dial is
    made, after it the provider reports that it could not parse its CA
    bundle. *)
Lemma GetConfig_shares_CABundle :
  let m : Memory := {[ 1%positive := pem ]} in
  exists m',
    storeCABundleByte (GetConfig bundled) 0 "X"%char m = Some m'
    /\ bundleBytes (GetConfig bundled) m = Some ["P"; "E"; "M"]%char
    /\ bundleBytes (GetConfig bundled) m' = Some ["X"; "E"; "M"]%char
    /\ fst (TestConnection onlyPEM alwaysTLS bundled tt (startWith m)) = None
    /\ fst (TestConnection onlyPEM alwaysTLS bundled tt (startWith m'))
       = Some ("error dialing host " +:+ quoted "ldap.example.com"
               +:+ ": LDAP Result Code 200 " +:+ quoted "Network Error"
               +:+ ": could not parse CA bundle").
Proof.
  eexists. split; [vm_compute; reflexivity|].
  repeat split; vm_compute; reflexivity.
Qed.

End ConfigAliasing.

(** * Token exchange: parameter validation *)

Section ValidateParams.
Import gostr fosite oidc.
#[local] Arguments String.append !s1 s2 : simpl nomatch.
Context {Ctx Time : Type}.
Implicit Types (t : TokenExchangeHandler Ctx Time) (params : url.Values).

Lemma Index_nonneg_app (a sub b : string) :
  0 <= strings.Index (a +:+ sub +:+ b) sub.
Proof.
  induction a as [|x a IH].
  - change ("" +:+ sub +:+ b) with (sub +:+ b).
    destruct (sub +:+ b) eqn:E.
    + simpl. destruct (strings.HasPrefix "" sub) eqn:Hp; [lia|].
      rewrite <- E, HasPrefix_app in Hp. done.
    + rewrite Index_cons, <- E, HasPrefix_app. lia.
  - change (String x a +:+ sub +:+ b) with (String x (a +:+ sub +:+ b)).
    rewrite Index_cons. destruct (strings.HasPrefix _ sub); [lia|].
    destruct (strings.Index (a +:+ sub +:+ b) sub <? 0) eqn:E; [|lia].
    apply Z.ltb_lt in E. lia.
Qed.

Lemma Index_nonneg_split (s sub : string) :
  0 <= strings.Index s sub -> exists a b, s = a +:+ sub +:+ b.
Proof.
  induction s as [|x s IH].
  - simpl. destruct (strings.HasPrefix "" sub) eqn:Hp; [|lia].
    intros _. apply HasPrefix_beginsWith in Hp as [b Hb]. by exists "", b.
  - rewrite Index_cons. destruct (strings.HasPrefix (String x s) sub) eqn:Hp.
    + intros _. apply HasPrefix_beginsWith in Hp as [b Hb]. by exists "", b.
    + destruct (strings.Index s sub <? 0) eqn:E; [lia|].
      apply Z.ltb_ge in E. intros _. destruct (IH E) as (a & b & ->).
      by exists (String x a), b.
Qed.

(** [strings.Contains] is the occurrence of the bytes of [sub] anywhere. *)
Lemma Contains_spec (s sub : string) :
  strings.Contains s sub = true <-> exists a b, s = a +:+ sub +:+ b.
Proof.
  unfold strings.Contains. rewrite Z.leb_le. split.
  - apply Index_nonneg_split.
  - intros (a & b & ->). apply Index_nonneg_app.
Qed.

Lemma firstSent_None params (names : list string) :
  firstSent params names = None
  <-> forall name, In name names -> url.Get params name = "".
Proof.
  induction names as [|n names IH]; simpl; [by split|].
  destruct (String.eqb_spec (url.Get params n) ""); simpl.
  - rewrite IH. split; [intros H name [<-|Hin]; auto|auto].
  - split; [done|]. intros H. exfalso. auto.
Qed.

Lemma firstSent_Some params (names : list string) (name : string) :
  firstSent params names = Some name ->
  In name names /\ url.Get params name <> "".
Proof.
  induction names as [|n names IH]; simpl; [done|].
  destruct (String.eqb_spec (url.Get params n) ""); simpl.
  - intros H. destruct (IH H). auto.
  - intros [= <-]. auto.
Qed.

Lemma reserved_dec (audience : string) :
  reserved audience
  <-> strings.Contains audience ".pinniped.dev" = true
      \/ String.eqb audience oidcapi.ClientIDPinnipedCLI = true.
Proof. unfold reserved. by rewrite Contains_spec, String.eqb_eq. Qed.

(** C2: whatever else a request carries, an audience that contains
    [.pinniped.dev] anywhere in its bytes, or that is the CLI client's
    identifier, is rejected with invalid-request; with the other parameters
    valid, every other non-empty audience is accepted and returned. *)
Theorem validateParams_audience t params :
  let audience := url.Get params "audience" in
  (reserved audience ->
   exists err, validateParams t params = inr err
               /\ nameOf err = Some InvalidRequest)
  /\ (othersValid params -> audience <> "" -> ~ reserved audience ->
      validateParams t params
      = inl {| subjectAccessToken := url.Get params "subject_token";
               requestedAudience := audience |}).
Proof.
  intros audience. subst audience. split.
  - intros Hres%reserved_dec. unfold validateParams.
    repeat match goal with
           | |- context [if ?b then _ else _] =>
               destruct b eqn:?; [by eauto|]
           | |- context [match firstSent ?p ?l with _ => _ end] =>
               destruct (firstSent p l); [by eauto|]
           end.
    destruct Hres; congruence.
  - intros (Hst & Hstt & Hrtt & Huns) Haud Hres. unfold validateParams.
    rewrite (eqb_empty_false _ Haud), (eqb_empty_false _ Hst), Hstt, Hrtt.
    rewrite !String.eqb_refl. cbn [negb].
    rewrite (proj2 (firstSent_None _ _) Huns).
    rewrite reserved_dec in Hres.
    destruct (strings.Contains _ _); [exfalso; auto|].
    destruct (String.eqb _ oidcapi.ClientIDPinnipedCLI); [exfalso; auto|done].
Qed.

Lemma validateParams_inl t params r :
  validateParams t params = inl r ->
  url.Get params "audience" <> ""
  /\ ~ reserved (url.Get params "audience")
  /\ othersValid params
  /\ r = {| subjectAccessToken := url.Get params "subject_token";
            requestedAudience := url.Get params "audience" |}.
Proof.
  unfold validateParams, othersValid. rewrite reserved_dec.
  destruct (String.eqb_spec (url.Get params "audience") ""); [done|].
  destruct (String.eqb_spec (url.Get params "subject_token") ""); [done|].
  destruct (String.eqb_spec (url.Get params "subject_token_type")
              tokenTypeAccessToken); [|done].
  destruct (String.eqb_spec (url.Get params "requested_token_type")
              tokenTypeJWT); [|done].
  cbn [negb].
  destruct (firstSent params unsupportedParams) eqn:Hsent; [done|].
  pose proof (proj1 (firstSent_None _ _) Hsent) as Huns.
  destruct (strings.Contains _ _); [done|].
  destruct (String.eqb _ oidcapi.ClientIDPinnipedCLI); [done|].
  intros [= <-]. repeat split; try done. by intros [|].
Qed.

Lemma unsupported_hint_names (param : string) :
  In param unsupportedParams ->
  strings.Contains ("Unsupported parameter " +:+ quoted param +:+ ".") param = true.
Proof.
  intros [<-|[<-|[<-|[<-|[]]]]]; vm_compute; reflexivity.
Qed.

Lemma validateParams_inr t params err :
  validateParams t params = inr err ->
  nameOf err = Some InvalidRequest
  /\ exists name hint,
       hintOf err = Some hint
       /\ offending params name
       /\ strings.Contains hint name = true.
Proof.
  unfold validateParams, offending.
  destruct (String.eqb_spec (url.Get params "audience") "") as [Ha|Ha].
  { intros [= <-]. split; [done|]. exists "audience". eexists.
    split; [done|]. split; [by auto|vm_compute; reflexivity]. }
  destruct (String.eqb_spec (url.Get params "subject_token") "") as [Hs|Hs].
  { intros [= <-]. split; [done|]. exists "subject_token". eexists.
    split; [done|]. split; [by auto|vm_compute; reflexivity]. }
  destruct (String.eqb_spec (url.Get params "subject_token_type")
              tokenTypeAccessToken) as [Hstt|Hstt]; cbn [negb].
  2: { intros [= <-]. split; [done|]. exists "subject_token_type". eexists.
       split; [done|]. split; [by auto 6|vm_compute; reflexivity]. }
  destruct (String.eqb_spec (url.Get params "requested_token_type")
              tokenTypeJWT) as [Hrtt|Hrtt]; cbn [negb].
  2: { intros [= <-]. split; [done|]. exists "requested_token_type". eexists.
       split; [done|]. split; [by auto 8|vm_compute; reflexivity]. }
  destruct (firstSent params unsupportedParams) as [param|] eqn:Hsent.
  { apply firstSent_Some in Hsent as [Hin Hne].
    intros [= <-]. split; [done|]. exists param. eexists.
    split; [done|]. split; [by auto 10|by apply unsupported_hint_names]. }
  destruct (strings.Contains _ _) eqn:Hc.
  { intros [= <-]. split; [done|]. exists "audience". eexists.
    split; [done|]. split; [|vm_compute; reflexivity].
    left. split; [done|]. right. apply reserved_dec. auto. }
  destruct (String.eqb _ oidcapi.ClientIDPinnipedCLI) eqn:Hcli; [|done].
  intros [= <-]. split; [done|]. exists "audience". eexists.
  split; [done|]. split; [|vm_compute; reflexivity].
  left. split; [done|]. right. apply reserved_dec. auto.
Qed.

(** C3: [validateParams] fails exactly when some parameter offends (an
    empty or reserved audience, an empty subject_token, a
    subject_token_type or requested_token_type other than the fixed value,
    or a value for resource, scope, actor_token or actor_token_type); the
    failure is an invalid-request whose hint names an offending parameter;
    otherwise the audience and the subject token are returned. *)
Theorem validateParams_iff t params :
  ((exists err, validateParams t params = inr err)
   <-> exists name, offending params name)
  /\ (forall err,
        validateParams t params = inr err ->
        nameOf err = Some InvalidRequest
        /\ exists name hint,
             hintOf err = Some hint
             /\ offending params name
             /\ strings.Contains hint name = true)
  /\ ((forall name, ~ offending params name) ->
      validateParams t params
      = inl {| subjectAccessToken := url.Get params "subject_token";
               requestedAudience := url.Get params "audience" |}).
Proof.
  assert (Hok : forall r name,
             validateParams t params = inl r -> ~ offending params name).
  { intros r name (Ha & Hres & (Hs & Hstt & Hrtt & Huns) & _)%validateParams_inl.
    intros [[_ [?|?]]|[[_ ?]|[[_ ?]|[[_ ?]|[Hin ?]]]]]; try done.
    by apply Huns in Hin. }
  split; [split|split].
  - intros [err (_ & name & _ & _ & Hoff & _)%validateParams_inr]. eauto.
  - intros [name Hoff].
    destruct (validateParams t params) as [r|err] eqn:Hv; [|eauto].
    by apply (Hok r name) in Hoff.
  - apply validateParams_inr.
  - intros Hnone.
    destruct (validateParams t params) as [r|err] eqn:Hv.
    + by apply validateParams_inl in Hv as (_ & _ & _ & ->).
    + apply validateParams_inr in Hv as (_ & name & _ & _ & Hoff & _).
      by apply Hnone in Hoff.
Qed.

End ValidateParams.

(** * Token exchange: the handler *)

Section PopulateResponse.
Import gostr fosite oidc.
Context {Ctx Time : Type}.
Variable Has : Arguments -> string -> bool.
Variable now : Time.
Implicit Types (t : TokenExchangeHandler Ctx Time)
  (requester originalRequester : AccessRequest Time) (params : stsParams).

Abbreviation Populate := (PopulateTokenEndpointResponse Has now).

(** The handler from the scope gate on, for a request that got there. *)
Lemma Populate_from_scopes {R} `{AccessResponder R}
    t ctx requester params originalRequester (responder : R) :
  passesToScopes Has t ctx requester params originalRequester ->
  Populate t ctx requester responder
  = if negb (Has (GrantedScope originalRequester) oidcapi.ScopeRequestAudience)
    then (Some (RFC6749Error AccessDenied
                  (Some ("Missing the " +:+ quoted oidcapi.ScopeRequestAudience
                         +:+ " scope.")) None), responder)
    else if negb (Has (GrantedScope originalRequester) oidcapi.ScopeOpenID)
    then (Some (RFC6749Error AccessDenied
                  (Some ("Missing the " +:+ quoted oidcapi.ScopeOpenID
                         +:+ " scope.")) None), responder)
    else match validateSession t originalRequester with
         | Some err => (Some err, responder)
         | None =>
             match mintJWT now t ctx originalRequester (requestedAudience params) with
             | inr err => (Some err, responder)
             | inl token => (None, populated token responder)
             end
         end.
Proof.
  intros (Hgate & Hparams & Htoken & Hclient & Hgrant).
  unfold PopulateTokenEndpointResponse.
  rewrite Hgate, Hparams, Htoken, Hclient, String.eqb_refl, Hgrant.
  reflexivity.
Qed.

(** C4: for a request that has passed the steps before the scope gate, a
    grant without the request-audience scope is answered with
    access-denied naming that scope; one with it but without the OpenID
    scope, with access-denied naming the OpenID scope; with both scopes the
    handler goes on to the session check and the minting, and it succeeds
    only then. *)
Theorem scope_gate {R} `{AccessResponder R}
    t ctx requester params originalRequester (responder : R) :
  passesToScopes Has t ctx requester params originalRequester ->
  let scopes := GrantedScope originalRequester in
  let result := Populate t ctx requester responder in
  (Has scopes oidcapi.ScopeRequestAudience = false ->
   result = (Some (RFC6749Error AccessDenied
                     (Some ("Missing the " +:+ quoted oidcapi.ScopeRequestAudience
                            +:+ " scope.")) None), responder))
  /\ (Has scopes oidcapi.ScopeRequestAudience = true ->
      Has scopes oidcapi.ScopeOpenID = false ->
      result = (Some (RFC6749Error AccessDenied
                        (Some ("Missing the " +:+ quoted oidcapi.ScopeOpenID
                               +:+ " scope.")) None), responder))
  /\ (Has scopes oidcapi.ScopeRequestAudience = true ->
      Has scopes oidcapi.ScopeOpenID = true ->
      result = match validateSession t originalRequester with
               | Some err => (Some err, responder)
               | None =>
                   match mintJWT now t ctx originalRequester
                           (requestedAudience params) with
                   | inr err => (Some err, responder)
                   | inl token => (None, populated token responder)
                   end
               end)
  /\ (fst result = None ->
      Has scopes oidcapi.ScopeRequestAudience = true
      /\ Has scopes oidcapi.ScopeOpenID = true).
Proof.
  intros Hpass scopes result. subst scopes result.
  rewrite (Populate_from_scopes _ _ _ _ _ _ Hpass).
  split; [|split; [|split]].
  - by intros ->.
  - by intros -> ->.
  - by intros -> ->.
  - destruct (Has _ oidcapi.ScopeRequestAudience); [|done].
    destruct (Has _ oidcapi.ScopeOpenID); done.
Qed.

(** C1: for a request that passes every check, the handler asks the
    ID-token strategy for a token for a fresh request that carries the
    original session and whose client ID is the requested audience, and
    with the JWT the strategy produces it sets the access token, sets the
    token type to ["N_A"] and sets the extra field [issued_token_type] to
    the JWT token-type URN. *)
Theorem populate_success {R} `{AccessResponder R}
    t ctx requester params originalRequester (responder : R) (jwt : string) :
  passesChecks Has t ctx requester params originalRequester ->
  let downscoped :=
    setClientID (NewAccessRequest now (RequestSession originalRequester))
      (requestedAudience params) in
  GenerateIDToken t ctx downscoped = inl jwt ->
  Populate t ctx requester responder
  = (None,
     SetExtra "issued_token_type" "urn:ietf:params:oauth:token-type:jwt"
       (SetTokenType "N_A" (SetAccessToken jwt responder)))
  /\ ID (RequestClient downscoped) = url.Get (Form requester) "audience"
  /\ RequestSession downscoped = RequestSession originalRequester
  /\ forall a : AccessResponse,
       let a' := snd (Populate t ctx requester a) in
       AccessToken a' = jwt
       /\ TokenType a' = "N_A"
       /\ Extra a' !! "issued_token_type"
          = Some "urn:ietf:params:oauth:token-type:jwt".
Proof.
  intros (Hpass & Hra & Hoidc & Hsession) downscoped Hmint.
  assert (Hrun : forall R' (HR : AccessResponder R') (r : R'),
             Populate t ctx requester r = (None, populated jwt r)).
  { intros R' HR r. rewrite (Populate_from_scopes _ _ _ _ _ _ Hpass).
    rewrite Hra, Hoidc, Hsession. cbn [negb]. unfold mintJWT.
    fold downscoped. by rewrite Hmint. }
  split; [apply Hrun|]. split.
  - destruct Hpass as (_ & Hparams & _).
    apply validateParams_inl in Hparams as (_ & _ & _ & ->). done.
  - split; [done|]. intros a. rewrite Hrun. cbn.
    split; [done|]. split; [done|]. apply lookup_insert_eq.
Qed.

(** C10: when the handler returns an error, whichever step it comes from,
    it returns the responder it was given; the three setters are applied
    only on the one path on which the gate, the parameters, the subject
    token, the client, the grant type, the scopes and the session have all
    been accepted and the token has been minted. *)
Theorem populate_error_leaves_responder {R} `{AccessResponder R}
    t ctx requester (responder : R) :
  (forall err,
     fst (Populate t ctx requester responder) = Some err ->
     snd (Populate t ctx requester responder) = responder)
  /\ (fst (Populate t ctx requester responder) = None ->
      exists params originalRequester token,
        passesChecks Has t ctx requester params originalRequester
        /\ mintJWT now t ctx originalRequester (requestedAudience params)
           = inl token
        /\ snd (Populate t ctx requester responder)
           = SetExtra "issued_token_type" tokenTypeJWT
               (SetTokenType "N_A" (SetAccessToken token responder))).
Proof.
  unfold PopulateTokenEndpointResponse, passesChecks, passesToScopes.
  destruct (HandleTokenEndpointRequest t ctx requester) eqn:Hgate;
    [by split|].
  destruct (validateParams t (Form requester)) as [params|] eqn:Hparams;
    [|by split].
  destruct (validateAccessToken t ctx requester (subjectAccessToken params))
    as [originalRequester|] eqn:Htoken; [|by split].
  destruct (String.eqb_spec (ID (RequestClient originalRequester))
              (ID (RequestClient requester))) as [Hclient|]; [|by split].
  cbn [negb].
  destruct (Has (GetGrantTypes _) _) eqn:Hgrant; [|by split].
  destruct (Has _ oidcapi.ScopeRequestAudience) eqn:Hra; [|by split].
  destruct (Has _ oidcapi.ScopeOpenID) eqn:Hoidc; [|by split].
  cbn [negb].
  destruct (validateSession t originalRequester) eqn:Hsession; [by split|].
  destruct (mintJWT now t ctx originalRequester (requestedAudience params))
    as [token|] eqn:Hmint; [|by split].
  split; [done|]. intros _. exists params, originalRequester, token.
  by repeat split.
Qed.

End PopulateResponse.

Section ExchangeExamples.
Import gostr fosite oidc exchangeExamples.

Lemma othersValid_form (audience : string) : othersValid (form audience).
Proof.
  split; [done|]. split; [reflexivity|]. split; [reflexivity|].
  intros name [<-|[<-|[<-|[<-|[]]]]]; reflexivity.
Qed.

Lemma validateParams_audience_witness :
  (exists err,
     validateParams (handler allScopes) (form "foo.pinniped.dev/x") = inr err
     /\ nameOf err = Some InvalidRequest)
  /\ (exists err,
        validateParams (handler allScopes) (form "pinniped-cli") = inr err
        /\ nameOf err = Some InvalidRequest)
  /\ validateParams (handler allScopes) (form "cluster-a.PINNIPED.DEV")
     = inl {| subjectAccessToken := "T";
              requestedAudience := "cluster-a.PINNIPED.DEV" |}.
Proof.
  split; [|split].
  - apply (proj1 (validateParams_audience (handler allScopes)
                    (form "foo.pinniped.dev/x"))).
    left. by exists "foo", "/x".
  - apply (proj1 (validateParams_audience (handler allScopes)
                    (form "pinniped-cli"))).
    by right.
  - apply (proj2 (validateParams_audience (handler allScopes)
                    (form "cluster-a.PINNIPED.DEV"))).
    + apply othersValid_form.
    + done.
    + intros [Hc|Hc]%reserved_dec; discriminate Hc.
Defined.

Lemma validateParams_iff_witness :
  (exists err,
     validateParams (handler allScopes)
       (<["scope" := ["openid"]]> (form "cluster-a")) = inr err)
  /\ validateParams (handler allScopes) (form "cluster-a")
     = inl {| subjectAccessToken := "T"; requestedAudience := "cluster-a" |}.
Proof.
  split.
  - apply (proj1 (validateParams_iff (handler allScopes)
                    (<["scope" := ["openid"]]> (form "cluster-a")))).
    exists "scope". do 4 right. split; [right; by left|done].
  - apply (proj2 (proj2 (validateParams_iff (handler allScopes)
                           (form "cluster-a")))).
    intros name [[_ [Ha|Hr]]|[[_ Hs]|[[_ Hs]|[[_ Hs]|[Hin Hs]]]]];
      try done.
    + apply reserved_dec in Hr as [Hc|Hc]; discriminate Hc.
    + by apply (othersValid_form "cluster-a") in Hin.
Defined.

Lemma passesToScopes_example (scopes : Arguments) :
  passesToScopes has (handler scopes) tt (request "cluster-a")
    {| subjectAccessToken := "T"; requestedAudience := "cluster-a" |}
    (original scopes).
Proof. repeat split. Qed.

Lemma scope_gate_witness :
  PopulateTokenEndpointResponse has 0%nat
    (handler [oidcapi.ScopeOpenID; oidcapi.ScopeUsername]) tt
    (request "cluster-a") blank
  = (Some (RFC6749Error AccessDenied
             (Some ("Missing the " +:+ quoted "pinniped:request-audience"
                    +:+ " scope.")) None), blank)
  /\ PopulateTokenEndpointResponse has 0%nat
       (handler [oidcapi.ScopeRequestAudience; oidcapi.ScopeUsername]) tt
       (request "cluster-a") blank
     = (Some (RFC6749Error AccessDenied
                (Some ("Missing the " +:+ quoted "openid" +:+ " scope.")) None),
        blank).
Proof.
  split.
  - apply (proj1 (scope_gate has 0%nat _ tt _ _ _ blank
                    (passesToScopes_example
                       [oidcapi.ScopeOpenID; oidcapi.ScopeUsername]))).
    reflexivity.
  - apply (proj1 (proj2 (scope_gate has 0%nat _ tt _ _ _ blank
                    (passesToScopes_example
                       [oidcapi.ScopeRequestAudience; oidcapi.ScopeUsername]))));
      reflexivity.
Defined.

Lemma populate_success_witness :
  PopulateTokenEndpointResponse has 0%nat (handler allScopes) tt
    (request "cluster-a") blank
  = (None,
     {| Extra := {[ "issued_token_type" := "urn:ietf:params:oauth:token-type:jwt" ]};
        AccessToken := "jwt aud=cluster-a";
        TokenType := "N_A" |}).
Proof.
  destruct (populate_success has 0%nat (handler allScopes) tt (request "cluster-a")
              {| subjectAccessToken := "T"; requestedAudience := "cluster-a" |}
              (original allScopes) blank "jwt aud=cluster-a") as [Hrun _].
  - split; [apply passesToScopes_example|]. repeat split.
  - reflexivity.
  - rewrite Hrun. reflexivity.
Defined.

Lemma populate_error_leaves_responder_witness :
  snd (PopulateTokenEndpointResponse has 0%nat (handler allScopes) tt
         (request "pinniped-cli") ([] : list ResponderCall))
  = [].
Proof.
  eapply (proj1 (populate_error_leaves_responder has 0%nat (handler allScopes) tt
                   (request "pinniped-cli") [])).
  reflexivity.
Defined.

End ExchangeExamples.

(** * The provider: order of the LDAP commands, and what a login returns *)

Section AuthenticationRuns.
Import gostr upstreamldap.
Context {World Ctx : Type}.
Variable AppendCertsFromPEM : list ascii -> bool.
Variable tlsDialAndStart :
  Ctx -> option (list ascii) -> string -> World -> (Conn World + error) * World.
Implicit Types (p : Provider World Ctx) (st : State World) (conn : Conn World).

Abbreviation dial_ := (dial AppendCertsFromPEM tlsDialAndStart).
Abbreviation authenticateUserImpl_ :=
  (authenticateUserImpl AppendCertsFromPEM tlsDialAndStart).
Abbreviation AuthenticateUser_ :=
  (AuthenticateUser AppendCertsFromPEM tlsDialAndStart).
Abbreviation DryRunAuthenticateUser_ :=
  (DryRunAuthenticateUser AppendCertsFromPEM tlsDialAndStart).
Abbreviation TestConnection_ :=
  (TestConnection AppendCertsFromPEM tlsDialAndStart).
Abbreviation searched_ := (searched AppendCertsFromPEM tlsDialAndStart).

Lemma call_trace {A} (ev : Event) (f : World -> A * World) st :
  trace (snd (call ev f st)) = trace st ++ [ev].
Proof. unfold call. by destruct (f (world st)). Qed.

Lemma call_mem {A} (ev : Event) (f : World -> A * World) st :
  mem (snd (call ev f st)) = mem st.
Proof. unfold call. by destruct (f (world st)). Qed.

Lemma deferClose_trace {A} conn (body : M A) st :
  trace (snd (deferClose conn body st)) = trace (snd (body st)) ++ [EvClose].
Proof.
  unfold deferClose, bind, connClose, ret. destruct (body st) as [a st'].
  reflexivity.
Qed.

(** The events of [searchAndBindUser]: the search, and after it only what
    the end-user bind function causes, if that runs at all. *)
Lemma searchAndBindUser_trace p conn username
    (bindFunc : Conn World -> string -> M (option error))
    (bindEvents : string -> list Event) st tr :
  (forall c dn st', trace (snd (bindFunc c dn st')) = trace st' ++ bindEvents dn) ->
  tr = trace (snd (searchAndBindUser p conn username bindFunc st)) ->
  tr = trace st ++ [EvSearch (userSearchRequest p username)]
  \/ exists dn,
       tr = trace st ++ [EvSearch (userSearchRequest p username)] ++ bindEvents dn.
Proof.
  intros Hbf. unfold searchAndBindUser, bind, ret, connSearch.
  pose proof (call_trace (EvSearch (userSearchRequest p username))
                (Search conn (userSearchRequest p username)) st) as Hs.
  destruct (call _ _ st) as [[res|err] st1]; cbn [snd] in *;
    [|intros ->; left; by rewrite Hs].
  destruct (ldap.Entries res) as [|entry [|e2 l]]; cbn [snd];
    [intros ->; left; by rewrite Hs| |intros ->; left; by rewrite Hs].
  destruct (len (ldap.DN entry) =? 0); cbn [snd];
    [intros ->; left; by rewrite Hs|].
  destruct (getSearchResultAttributeValue p (UsernameAttribute _) _ _); cbn [snd];
    [|intros ->; left; by rewrite Hs].
  destruct (getSearchResultAttributeValue p (UIDAttribute _) _ _); cbn [snd];
    [|intros ->; left; by rewrite Hs].
  specialize (Hbf conn (ldap.DN entry) st1).
  destruct (bindFunc conn (ldap.DN entry) st1) as [[e|] st2]; cbn [snd] in *.
  - destruct (strings.HasPrefix e _); cbn [snd]; intros ->; right;
      exists (ldap.DN entry); by rewrite Hbf, Hs, <- app_assoc.
  - intros ->. right. exists (ldap.DN entry). by rewrite Hbf, Hs, <- app_assoc.
Qed.

Lemma authenticateUserImpl_trace p ctx username
    (bindFunc : Conn World -> string -> M (option error))
    (bindEvents : string -> list Event) st conn st1 tr :
  (forall c dn st', trace (snd (bindFunc c dn st')) = trace st' ++ bindEvents dn) ->
  validateConfig p = None -> username <> "" ->
  dial_ p ctx st = (inl conn, st1) ->
  tr = trace (snd (authenticateUserImpl_ p ctx username bindFunc st)) ->
  tr = trace st1 ++ [EvBind (BindUsername (c p)) (BindPassword (c p)); EvClose]
  \/ tr = trace st1 ++ [EvBind (BindUsername (c p)) (BindPassword (c p));
                        EvSearch (userSearchRequest p username); EvClose]
  \/ exists dn,
       tr = trace st1 ++ [EvBind (BindUsername (c p)) (BindPassword (c p));
                          EvSearch (userSearchRequest p username)]
                      ++ bindEvents dn ++ [EvClose].
Proof.
  intros Hbf Hvalid Hu Hdial. unfold authenticateUserImpl.
  rewrite Hvalid.
  replace (len username =? 0) with false
    by (symmetry; apply not_true_iff_false; by rewrite len_eqb_empty).
  unfold bind at 1. rewrite Hdial, deferClose_trace.
  unfold bind at 1, connBind.
  pose proof (call_trace (EvBind (BindUsername (c p)) (BindPassword (c p)))
                (Bind conn (BindUsername (c p)) (BindPassword (c p))) st1) as Hb.
  destruct (call _ _ st1) as [[e|] st2]; cbn [snd] in *.
  { intros ->. left. unfold ret. cbn [snd]. by rewrite Hb, <- app_assoc. }
  unfold bind.
  pose proof (searchAndBindUser_trace p conn username bindFunc bindEvents st2 _
                Hbf eq_refl) as Hs.
  destruct (searchAndBindUser p conn username bindFunc st2)
    as [[[mu mi] err] st3]; cbn [snd] in *.
  intros E.
  assert (Htr : tr = trace st3 ++ [EvClose]).
  { rewrite E. destruct err; [done|]. by destruct (_ || _). }
  rewrite Htr. destruct Hs as [->|[dn ->]]; rewrite Hb.
  - right; left. by rewrite <- !app_assoc.
  - right; right. exists dn. by rewrite <- !app_assoc.
Qed.

(** X1: once the dial has succeeded, a login issues its LDAP commands in a
    fixed order and always releases the connection: the service-account
    bind, then at most one search, then at most one bind as the end user
    with the given password, and [Close] as the last event on every path. *)
Theorem AuthenticateUser_command_order p ctx username password st conn st1 :
  validateConfig p = None -> username <> "" ->
  dial_ p ctx st = (inl conn, st1) ->
  let tr := trace (snd (AuthenticateUser_ p ctx username password st)) in
  let service := EvBind (BindUsername (c p)) (BindPassword (c p)) in
  let search := EvSearch (userSearchRequest p username) in
  tr = trace st1 ++ [service; EvClose]
  \/ tr = trace st1 ++ [service; search; EvClose]
  \/ exists dn, tr = trace st1 ++ [service; search; EvBind dn password; EvClose].
Proof.
  intros Hvalid Hu Hdial tr service search.
  apply (authenticateUserImpl_trace p ctx username
           (fun (conn0 : Conn World) (foundUserDN : string) =>
              connBind conn0 foundUserDN password)
           (fun dn => [EvBind dn password]) st conn st1); try done.
  intros c0 dn st'. apply call_trace.
Qed.

(** X2: a dry run never binds as the end user: after the dial its only
    commands are the service-account bind, at most one search, and [Close]. *)
Theorem DryRunAuthenticateUser_never_binds_user p ctx username st conn st1 :
  validateConfig p = None -> username <> "" ->
  dial_ p ctx st = (inl conn, st1) ->
  let tr := trace (snd (DryRunAuthenticateUser_ p ctx username st)) in
  let service := EvBind (BindUsername (c p)) (BindPassword (c p)) in
  let search := EvSearch (userSearchRequest p username) in
  tr = trace st1 ++ [service; EvClose]
  \/ tr = trace st1 ++ [service; search; EvClose].
Proof.
  intros Hvalid Hu Hdial tr service search.
  destruct (authenticateUserImpl_trace p ctx username
              (fun (_ : Conn World) (_ : string) => ret (None : option error))
              (fun _ => []) st conn st1 tr) as [H|[H|[dn H]]]; try done.
  - intros c0 dn st'. cbn. by rewrite app_nil_r.
  - by left.
  - by right.
  - by right.
Qed.

(** When [searchAndBindUser] hands back a name, it comes from the single
    entry of the search, and the end-user bind function accepted its DN. *)
Lemma searchAndBindUser_mapped p conn username
    (bindFunc : Conn World -> string -> M (option error)) st mu mi stf :
  mu <> "" ->
  searchAndBindUser p conn username bindFunc st = ((mu, mi, None), stf)
  <-> exists res st' entry,
        connSearch conn (userSearchRequest p username) st = (inl res, st')
        /\ ldap.Entries res = [entry]
        /\ ldap.DN entry <> ""
        /\ getSearchResultAttributeValue p (UsernameAttribute (UserSearch (c p)))
             entry username = inl mu
        /\ getSearchResultAttributeValue p (UIDAttribute (UserSearch (c p)))
             entry username = inl mi
        /\ bindFunc conn (ldap.DN entry) st' = (None, stf).
Proof.
  intros Hmu. unfold searchAndBindUser, bind, ret. split.
  - destruct (connSearch conn _ st) as [[res|err] st1] eqn:Hs; [|done].
    destruct (ldap.Entries res) as [|entry [|e2 l]] eqn:HE;
      [by intros [= <-]| |done].
    destruct (len (ldap.DN entry) =? 0) eqn:HDN; [done|].
    assert (ldap.DN entry <> "") by (intros E; by rewrite E in HDN).
    destruct (getSearchResultAttributeValue p (UsernameAttribute _) _ _)
      as [name|] eqn:Hn; [|done].
    destruct (getSearchResultAttributeValue p (UIDAttribute _) _ _)
      as [uid|] eqn:Hu; [|done].
    destruct (bindFunc conn (ldap.DN entry) st1) as [[e|] st2] eqn:Hb.
    + destruct (strings.HasPrefix e _); [by intros [= <-]|done].
    + intros [= <- <- <-]. exists res, st1, entry. by rewrite HE.
  - intros (res & st1 & entry & Hs & HE & HDN & Hn & Hi & Hbf).
    rewrite Hs, HE.
    replace (len (ldap.DN entry) =? 0) with false
      by (symmetry; apply not_true_iff_false; by rewrite len_eqb_empty).
    by rewrite Hn, Hi, Hbf.
Qed.

Lemma authenticateUserImpl_success p ctx username
    (bindFunc : Conn World -> string -> M (option error)) st name uid :
  fst (authenticateUserImpl_ p ctx username bindFunc st)
  = (Some {| User := {| Name := name; UID := uid; Groups := [] |} |}, true, None)
  <-> validateConfig p = None /\ username <> ""
      /\ exists conn res st' entry st'',
           searched_ p ctx username st conn res st'
           /\ ldap.Entries res = [entry]
           /\ ldap.DN entry <> ""
           /\ getSearchResultAttributeValue p (UsernameAttribute (UserSearch (c p)))
                entry username = inl name
           /\ getSearchResultAttributeValue p (UIDAttribute (UserSearch (c p)))
                entry username = inl uid
           /\ bindFunc conn (ldap.DN entry) st' = (None, st'').
Proof.
  unfold authenticateUserImpl, searched.
  destruct (validateConfig p) eqn:Hvalid; [split; [done|by intros [? _]]|].
  destruct (len username =? 0) eqn:Hu.
  { apply len_eqb_empty in Hu. split; [done|]. by intros (_ & ? & _). }
  assert (username <> "") by (intros E; by rewrite E in Hu).
  unfold bind at 1.
  destruct (dial_ p ctx st) as [[conn|err] st1] eqn:Hdial.
  2: { split; [done|]. by intros (_ & _ & ? & ? & ? & ? & ? & (? & ? & [=] & _) & _). }
  rewrite deferClose_fst. unfold bind at 1.
  destruct (connBind conn _ _ st1) as [[e|] st2] eqn:Hbind.
  { split; [done|].
    intros (_ & _ & ? & ? & ? & ? & ? & (? & ? & [= <- <-] & Hb & _) & _).
    by rewrite Hbind in Hb. }
  unfold bind.
  destruct (searchAndBindUser p conn username bindFunc st2)
    as [[[mu mi] [e|]] st3] eqn:Hsb.
  { split; [done|].
    intros (_ & _ & ? & res & st' & entry & st'' & (? & ? & [= <- <-] & Hb & Hs)
            & HE & HDN & Hn & Hi & Hbf).
    rewrite Hbind in Hb. injection Hb as <-.
    assert (Hname : name <> "") by (by eapply attribute_value_nonempty).
    assert (Hok : searchAndBindUser p conn username bindFunc st2
                  = ((name, uid, None), st'')).
    { apply searchAndBindUser_mapped; [done|]. exists res, st', entry. eauto 10. }
    by rewrite Hsb in Hok. }
  destruct (searchAndBindUser_ok _ _ _ _ _ _ _ _ Hsb) as [(-> & -> & Hc)|[Hmu Hmi]].
  - split; [done|].
    intros (_ & _ & ? & res & st' & entry & st'' & (? & ? & [= <- <-] & Hb & Hs)
            & HE & HDN & Hn & Hi & Hbf).
    rewrite Hbind in Hb. injection Hb as <-.
    assert (Hname : name <> "") by (by eapply attribute_value_nonempty).
    assert (Hok : searchAndBindUser p conn username bindFunc st2
                  = ((name, uid, None), st'')).
    { apply searchAndBindUser_mapped; [done|]. exists res, st', entry. eauto 10. }
    rewrite Hsb in Hok. by injection Hok as <-.
  - replace (len mu =? 0) with false
      by (symmetry; apply not_true_iff_false; by rewrite len_eqb_empty).
    replace (len mi =? 0) with false
      by (symmetry; apply not_true_iff_false; by rewrite len_eqb_empty).
    cbn [orb fst ret]. split.
    + intros [= -> ->]. split; [done|]. split; [done|].
      apply searchAndBindUser_mapped in Hsb as (res & st' & entry & Hs & HE & HDN
                                                & Hn & Hi & Hbf); [|done].
      exists conn, res, st', entry, st3. split; [|done]. exists st1, st2. done.
    + intros (_ & _ & ? & res & st' & entry & st'' & (? & ? & [= <- <-] & Hb & Hs)
              & HE & HDN & Hn & Hi & Hbf).
      rewrite Hbind in Hb. injection Hb as <-.
      assert (Hname : name <> "") by (by eapply attribute_value_nonempty).
      assert (Hok : searchAndBindUser p conn username bindFunc st2
                    = ((name, uid, None), st'')).
      { apply searchAndBindUser_mapped; [done|]. exists res, st', entry. eauto 10. }
      rewrite Hsb in Hok. by injection Hok as -> -> _.
Qed.

(** The three values a login returns go together: there is a response only
    with [true] and no error, and it names a user. *)
Lemma authenticateUserImpl_shape p ctx username
    (bindFunc : Conn World -> string -> M (option error)) st r :
  r = fst (authenticateUserImpl_ p ctx username bindFunc st) ->
  (exists err, r = (None, false, err))
  \/ (exists name uid,
        r = (Some {| User := {| Name := name; UID := uid; Groups := [] |} |},
             true, None)
        /\ name <> "" /\ uid <> "").
Proof.
  unfold authenticateUserImpl.
  destruct (validateConfig p); [intros ->; left; by eauto|].
  destruct (len username =? 0); [intros ->; left; by eauto|].
  unfold bind at 1.
  destruct (dial_ p ctx st) as [[conn|err] st1]; [|intros ->; left; by eauto].
  rewrite deferClose_fst. unfold bind at 1.
  destruct (connBind conn _ _ st1) as [[e|] st2]; [intros ->; left; by eauto|].
  unfold bind.
  destruct (searchAndBindUser p conn username bindFunc st2)
    as [[[mu mi] [e|]] st3] eqn:Hsb; [intros ->; left; by eauto|].
  destruct (searchAndBindUser_ok _ _ _ _ _ _ _ _ Hsb) as [(-> & -> & Hc)|[Hmu Hmi]];
    [intros ->; left; by eauto|].
  replace (len mu =? 0) with false
    by (symmetry; apply not_true_iff_false; by rewrite len_eqb_empty).
  replace (len mi =? 0) with false
    by (symmetry; apply not_true_iff_false; by rewrite len_eqb_empty).
  intros ->. right. exists mu, mi. done.
Qed.

(** X3: whatever the directory answers, [AuthenticateUser] and
    [DryRunAuthenticateUser] return either no response, [false] and possibly
    an error, or a response, [true] and no error; a response always carries a
    non-empty name, a non-empty UID and an empty list of groups. *)
Theorem authenticate_result_shape p ctx username password st :
  let shape (r : option Response * bool * option error) :=
    (exists err, r = (None, false, err))
    \/ (exists name uid,
          r = (Some {| User := {| Name := name; UID := uid; Groups := [] |} |},
               true, None)
          /\ name <> "" /\ uid <> "") in
  shape (fst (AuthenticateUser_ p ctx username password st))
  /\ shape (fst (DryRunAuthenticateUser_ p ctx username st)).
Proof. split; by eapply authenticateUserImpl_shape. Qed.

(** X4: [AuthenticateUser] returns a user exactly when the config is valid,
    the username is not empty, the dial, the service-account bind and the
    search succeed, the search returns one entry with a DN from which both
    mapped attributes can be read, and the bind as that DN with the given
    password succeeds; the name and UID returned are the mapped attributes. *)
Theorem AuthenticateUser_success p ctx username password st name uid :
  fst (AuthenticateUser_ p ctx username password st)
  = (Some {| User := {| Name := name; UID := uid; Groups := [] |} |}, true, None)
  <-> validateConfig p = None /\ username <> ""
      /\ exists conn res st' entry st'',
           searched_ p ctx username st conn res st'
           /\ ldap.Entries res = [entry]
           /\ ldap.DN entry <> ""
           /\ getSearchResultAttributeValue p (UsernameAttribute (UserSearch (c p)))
                entry username = inl name
           /\ getSearchResultAttributeValue p (UIDAttribute (UserSearch (c p)))
                entry username = inl uid
           /\ connBind conn (ldap.DN entry) password st' = (None, st'').
Proof. apply authenticateUserImpl_success. Qed.

(** X5: the dry run returns what a login with the correct password returns:
    whenever [AuthenticateUser] returns a user for some password,
    [DryRunAuthenticateUser] returns the same user from the same state. *)
Theorem DryRun_agrees_with_login p ctx username password st response :
  fst (AuthenticateUser AppendCertsFromPEM tlsDialAndStart p ctx username password st)
  = (Some response, true, None) ->
  fst (DryRunAuthenticateUser AppendCertsFromPEM tlsDialAndStart p ctx username st)
  = (Some response, true, None).
Proof.
  intros Hlogin.
  destruct (authenticateUserImpl_shape p ctx username
              (fun (conn : Conn World) (foundUserDN : string) =>
                 connBind conn foundUserDN password) st _ eq_refl)
    as [[err Herr]|(name & uid & Hr & _)].
  { unfold AuthenticateUser in Hlogin. by rewrite Herr in Hlogin. }
  unfold AuthenticateUser in Hlogin. rewrite Hr in Hlogin.
  injection Hlogin as <-.
  apply authenticateUserImpl_success in Hr
    as (Hv & Hu & conn & res & st' & entry & st'' & Hs & HE & HDN & Hn & Hi & _).
  unfold DryRunAuthenticateUser. apply authenticateUserImpl_success.
  split; [done|]. split; [done|].
  exists conn, res, st', entry, st'. done.
Qed.

(** The outcome of a login depends on the end-user bind function only
    through what it returns on the connection that was dialed. *)
Lemma authenticateUserImpl_bind_result p ctx username
    (bind1 bind2 : Conn World -> string -> M (option error)) st :
  (forall conn st1, dial_ p ctx st = (inl conn, st1) ->
     forall dn st', fst (bind1 conn dn st') = fst (bind2 conn dn st')) ->
  fst (authenticateUserImpl_ p ctx username bind1 st)
  = fst (authenticateUserImpl_ p ctx username bind2 st).
Proof.
  intros Hsame. unfold authenticateUserImpl.
  destruct (validateConfig p); [done|].
  destruct (len username =? 0); [done|].
  unfold bind. destruct (dial_ p ctx st) as [[conn|err] st1]; [|done].
  specialize (Hsame conn st1 eq_refl).
  rewrite !deferClose_fst.
  destruct (connBind conn _ _ st1) as [[e|] st2]; [done|].
  assert (Hsb : fst (searchAndBindUser p conn username bind1 st2)
                = fst (searchAndBindUser p conn username bind2 st2)).
  { unfold searchAndBindUser, bind, ret.
    destruct (connSearch conn _ st2) as [[res|err] st3]; [|done].
    destruct (ldap.Entries res) as [|entry [|e2 l]]; [done| |done].
    destruct (len (ldap.DN entry) =? 0); [done|].
    destruct (getSearchResultAttributeValue p (UsernameAttribute _) _ _); [|done].
    destruct (getSearchResultAttributeValue p (UIDAttribute _) _ _); [|done].
    specialize (Hsame (ldap.DN entry) st3).
    destruct (bind1 conn (ldap.DN entry) st3) as [r1 s1].
    destruct (bind2 conn (ldap.DN entry) st3) as [r2 s2].
    cbn [fst] in Hsame. subst r2. destruct r1 as [e|]; [|done].
    by destruct (strings.HasPrefix e _). }
  destruct (searchAndBindUser p conn username bind1 st2) as [[[mu1 mi1] e1] s1].
  destruct (searchAndBindUser p conn username bind2 st2) as [[[mu2 mi2] e2] s2].
  cbn [fst] in Hsb. injection Hsb as -> -> ->.
  destruct e2; [done|]. by destruct (_ || _).
Qed.

(** X6: the password reaches the outcome of a login only through the answer
    to the end-user bind: two passwords to which the dialed connection
    answers alike, for every DN and in every state, give the same response,
    flag and error, so no error text is made from the password itself. *)
Theorem AuthenticateUser_password_only_in_bind p ctx username pw1 pw2 st :
  (forall conn st1, dial_ p ctx st = (inl conn, st1) ->
     forall dn st',
       fst (connBind conn dn pw1 st') = fst (connBind conn dn pw2 st')) ->
  fst (AuthenticateUser_ p ctx username pw1 st)
  = fst (AuthenticateUser_ p ctx username pw2 st).
Proof.
  intros Hsame. unfold AuthenticateUser.
  by apply authenticateUserImpl_bind_result.
Qed.

End AuthenticationRuns.

(** * The provider: dialing and the connection test *)

Section Dialing.
Import gostr upstreamldap.
#[local] Arguments String.append !s1 s2 : simpl nomatch.
Context {World Ctx : Type}.
Variable AppendCertsFromPEM : list ascii -> bool.
Variable tlsDialAndStart :
  Ctx -> option (list ascii) -> string -> World -> (Conn World + error) * World.
Implicit Types (p : Provider World Ctx) (st : State World) (conn : Conn World).

Abbreviation dial__ := (dial AppendCertsFromPEM tlsDialAndStart).
Abbreviation TestConnection__ :=
  (TestConnection AppendCertsFromPEM tlsDialAndStart).

(** X7: without an injected dialer every error of [dial] is a network-class
    LDAP error (result code 200), and two of its causes are found before any
    connection is attempted: a host that cannot be normalized, and a CA
    bundle from which no certificate can be read; in both the state is left
    as it was. *)
Theorem default_dial_errors p ctx st :
  Dialer (c p) = None ->
  (forall e st', dial__ p ctx st = (inr e, st') ->
     exists cause, e = ldap.NewError_ErrorNetwork cause)
  /\ (forall cause,
        hostAndPortWithDefaultPort (Host (c p)) ldap.DefaultLdapsPort = inr cause ->
        dial__ p ctx st = (inr (ldap.NewError_ErrorNetwork cause), st))
  /\ (forall hostAndPort bundle,
        hostAndPortWithDefaultPort (Host (c p)) ldap.DefaultLdapsPort
        = inl hostAndPort ->
        CABundle (c p) = Some bundle ->
        AppendCertsFromPEM (sliceBytes (mem st) bundle) = false ->
        dial__ p ctx st
        = (inr (ldap.NewError_ErrorNetwork "could not parse CA bundle"), st)).
Proof.
  intros Hnil. unfold dial, dialTLS. rewrite Hnil. split; [|split].
  - intros e st'.
    destruct (hostAndPortWithDefaultPort _ _) as [hostAndPort|cause].
    2: { intros [= <- _]. eauto. }
    destruct (CABundle (c p)) as [bundle|].
    + destruct (AppendCertsFromPEM _).
      * unfold bind, ret.
        destruct (call _ _ st) as [[conn|err] st1]; [done|].
        intros [= <- _]. eauto.
      * intros [= <- _]. eauto.
    + unfold bind, ret.
      destruct (call _ _ st) as [[conn|err] st1]; [done|].
      intros [= <- _]. eauto.
  - by intros cause ->.
  - intros hostAndPort bundle -> -> ->. done.
Qed.


Lemma TestConnection_after_dial p ctx st conn st1 :
  validateConfig p = None -> dial__ p ctx st = (inl conn, st1) ->
  TestConnection__ p ctx st
  = deferClose conn
      (bind (connBind conn (BindUsername (c p)) (BindPassword (c p)))
         (fun err =>
            match err with
            | Some e => ret (Some ("error binding as "
                                   +:+ quoted (BindUsername (c p)) +:+ ": " +:+ e))
            | None => ret None
            end)) st1.
Proof.
  intros Hvalid Hdial. unfold TestConnection. rewrite Hvalid.
  unfold bind at 1. by rewrite Hdial.
Qed.

(** X9: with a valid config [TestConnection] returns no error exactly when
    the dial and the service-account bind both succeed; a failed dial is
    reported with the configured host and leaves nothing to close; after a
    successful dial the only commands are the service-account bind and
    [Close], whether the bind succeeds or not, and a failed bind is reported
    with the bind username. *)
Theorem TestConnection_outcomes p ctx st :
  validateConfig p = None ->
  (fst (TestConnection__ p ctx st) = None
   <-> exists conn st1 st2,
         dial__ p ctx st = (inl conn, st1)
         /\ connBind conn (BindUsername (c p)) (BindPassword (c p)) st1
            = (None, st2))
  /\ (forall e st1,
        dial__ p ctx st = (inr e, st1) ->
        TestConnection__ p ctx st
        = (Some ("error dialing host " +:+ quoted (Host (c p)) +:+ ": " +:+ e), st1))
  /\ (forall conn st1,
        dial__ p ctx st = (inl conn, st1) ->
        trace (snd (TestConnection__ p ctx st))
        = trace st1 ++ [EvBind (BindUsername (c p)) (BindPassword (c p)); EvClose]
        /\ forall e st2,
             connBind conn (BindUsername (c p)) (BindPassword (c p)) st1
             = (Some e, st2) ->
             fst (TestConnection__ p ctx st)
             = Some ("error binding as " +:+ quoted (BindUsername (c p))
                     +:+ ": " +:+ e)).
Proof.
  intros Hvalid. split; [|split].
  - destruct (dial__ p ctx st) as [[conn|err] st1] eqn:Hdial.
    + rewrite (TestConnection_after_dial _ _ _ _ _ Hvalid Hdial), deferClose_fst.
      unfold bind.
      destruct (connBind conn _ _ st1) as [[e|] st2] eqn:Hb.
      * split; [done|]. intros (? & ? & ? & [= <- <-] & Hb'). by rewrite Hb in Hb'.
      * split; [eauto|done].
    + unfold TestConnection. rewrite Hvalid. unfold bind at 1. rewrite Hdial.
      split; [done|]. by intros (? & ? & ? & [=] & _).
  - intros e st1 Hdial. unfold TestConnection. rewrite Hvalid.
    unfold bind at 1. by rewrite Hdial.
  - intros conn st1 Hdial.
    rewrite (TestConnection_after_dial _ _ _ _ _ Hvalid Hdial).
    rewrite deferClose_trace, deferClose_fst. unfold bind, connBind. split.
    + pose proof (call_trace (EvBind (BindUsername (c p)) (BindPassword (c p)))
                    (Bind conn (BindUsername (c p)) (BindPassword (c p))) st1) as Hb.
      destruct (call _ _ st1) as [[e|] st2]; cbn [snd ret] in *;
        by rewrite Hb, <- app_assoc.
    + intros e st2 Hb. by rewrite Hb.
Qed.

End Dialing.

(** * The provider: the search request and the addresses *)

Section SearchRequestFacts.
Import gostr upstreamldap.
#[local] Arguments String.append !s1 s2 : simpl nomatch.
Context {World Ctx : Type}.
Implicit Types p : Provider World Ctx.

(** X10: the search filter is always enclosed in parentheses: whatever the
    configured Filter and the username are, it begins with ["("] and ends
    with [")"]. *)
Theorem userSearchFilter_parenthesized p (username : string) :
  beginsWith (userSearchFilter p username) "("
  /\ endsWith (userSearchFilter p username) ")".
Proof.
  assert (Hwrap : forall body, beginsWith ("(" +:+ body +:+ ")") "("
                               /\ endsWith ("(" +:+ body +:+ ")") ")").
  { intros body. split; [by exists (body +:+ ")")|].
    exists ("(" +:+ body). by rewrite app_assoc_s. }
  unfold userSearchFilter.
  destruct (len (Filter (UserSearch (c p))) =? 0).
  - replace ("(" +:+ UsernameAttribute (UserSearch (c p)) +:+ "="
             +:+ escapeUsernameForSearchFilter p username +:+ ")")
      with ("(" +:+ (UsernameAttribute (UserSearch (c p)) +:+ "="
                     +:+ escapeUsernameForSearchFilter p username) +:+ ")")
      by (by rewrite !app_assoc_s).
    apply Hwrap.
  - destruct (strings.HasPrefix _ "(") eqn:Hb; cbn [andb]; [|apply Hwrap].
    destruct (strings.HasSuffix _ ")") eqn:He; [|apply Hwrap].
    split; [by apply HasPrefix_beginsWith|by apply HasSuffix_endsWith].
Qed.

(** X11: the attributes a search asks for are the configured username and
    UID attributes other than ["dn"], whatever the username is: the DN is
    never requested as an attribute. *)
Theorem userSearchRequest_attributes p (username attribute : string) :
  In attribute (ldap.ReqAttributes (userSearchRequest p username))
  <-> attribute <> "dn"
      /\ (attribute = UsernameAttribute (UserSearch (c p))
          \/ attribute = UIDAttribute (UserSearch (c p))).
Proof.
  cbn [userSearchRequest ldap.ReqAttributes]. unfold userSearchRequestedAttributes.
  destruct (String.eqb_spec (UsernameAttribute (UserSearch (c p)))
              distinguishedNameAttributeName) as [Hn|Hn];
    destruct (String.eqb_spec (UIDAttribute (UserSearch (c p)))
                distinguishedNameAttributeName) as [Hi|Hi];
    cbn [negb app In]; unfold distinguishedNameAttributeName in *.
  - split; [done|]. intros [Hne [->| ->]]; done.
  - split.
    + intros [<-|[]]. auto.
    + intros [Hne [->| ->]]; [done|auto].
  - split.
    + intros [<-|[]]. auto.
    + intros [Hne [->| ->]]; [auto|done].
  - split.
    + intros [<-|[<-|[]]]; auto.
    + intros [Hne [->| ->]]; auto.
Qed.

End SearchRequestFacts.

Section AddressFacts.
Import gostr upstreamldap.
#[local] Arguments String.append !s1 s2 : simpl nomatch.

Lemma sliceFrom_skip (x y : string) (k : Z) :
  0 <= k -> sliceFrom (x +:+ y) (len x + k) = sliceFrom y k.
Proof.
  intros Hk. unfold sliceFrom, slice. rewrite len_app. unfold len.
  replace (Z.to_nat (Z.of_nat (String.length x) + k))
    with (String.length x + Z.to_nat k)%nat by lia.
  rewrite substring_skip. f_equal. lia.
Qed.

Lemma HasSuffix_tail (x y q : string) :
  len q <= len y -> strings.HasSuffix (x +:+ y) q = strings.HasSuffix y q.
Proof.
  intros Hlen. unfold strings.HasSuffix. rewrite len_app.
  pose proof (len_nonneg x). pose proof (len_nonneg q).
  replace (len x + len y - len q) with (len x + (len y - len q)) by lia.
  rewrite sliceFrom_skip by lia.
  replace (len q <=? len x + len y) with true by (symmetry; apply Z.leb_le; lia).
  replace (len q <=? len y) with true by (symmetry; apply Z.leb_le; lia).
  done.
Qed.

(** X12: an unusable host is an error, for every default port: the empty
    host is not given the default port but rejected for its missing port,
    and a host without brackets that holds two colons or more is rejected
    for its too many colons. *)
Theorem hostAndPortWithDefaultPort_rejects (defaultPort : string) :
  hostAndPortWithDefaultPort "" defaultPort = inr "missing port in address"
  /\ forall a b c,
       has_byte "[" (a +:+ ":" +:+ b +:+ ":" +:+ c) = false ->
       has_byte ":" c = false ->
       hostAndPortWithDefaultPort (a +:+ ":" +:+ b +:+ ":" +:+ c) defaultPort
       = inr ("address " +:+ (a +:+ ":" +:+ b +:+ ":" +:+ c)
              +:+ ": too many colons in address").
Proof.
  split; [reflexivity|]. intros a b c Hbr Hc.
  set (s := a +:+ ":" +:+ b +:+ ":" +:+ c) in *.
  assert (Hs : s = (a +:+ ":" +:+ b) +:+ String ":" c)
    by (unfold s; by rewrite !app_assoc_s).
  assert (Hsplit : net.SplitHostPort s = net.addrErr s net.tooManyColons).
  { unfold net.SplitHostPort.
    rewrite bool_decide_eq_false_2 by (by apply at_zero_absent).
    assert (Hlast : net.last s ":" = len (a +:+ ":" +:+ b))
      by (rewrite Hs; by apply last_final).
    assert (Hhost : slice s 0 (len (a +:+ ":" +:+ b)) = a +:+ ":" +:+ b)
      by (rewrite Hs; apply slice_head).
    rewrite Hlast, len_ltb0, Hhost.
    assert (Hin : has_byte ":" (a +:+ ":" +:+ b) = true).
    { rewrite has_byte_app. simpl. by rewrite orb_true_r. }
    apply IndexByteString_present, Z.leb_le in Hin. by rewrite Hin. }
  unfold hostAndPortWithDefaultPort. rewrite Hsplit.
  unfold net.addrErr, net.AddrError_Error. cbn [net.Addr net.Err].
  assert (Hne : String.eqb s "" = false).
  { apply String.eqb_neq. intros E. rewrite E in Hs. by destruct (a +:+ ":" +:+ b). }
  rewrite Hne.
  replace ("address " +:+ s +:+ ": " +:+ net.tooManyColons)
    with (("address " +:+ s) +:+ ": too many colons in address")
    by (by rewrite app_assoc_s).
  rewrite HasSuffix_tail by (vm_compute; discriminate).
  change (strings.HasSuffix ": too many colons in address"
            ": missing port in address") with false.
  cbv iota. by rewrite app_assoc_s.
Qed.

Lemma plain_636 : "636" <> "" /\ plain "636".
Proof. by repeat split. Qed.

(** X13: normalization reaches a fixed point in one step: on each of the
    four forms of a host, with a usable default port, it succeeds, and
    normalizing its result again, with any default port, returns the result
    unchanged. *)
Theorem hostAndPortWithDefaultPort_idempotent (host defaultPort : string) :
  hostform host -> defaultPort <> "" -> plain defaultPort ->
  exists normalized,
    hostAndPortWithDefaultPort host defaultPort = inl normalized
    /\ forall otherPort,
         hostAndPortWithDefaultPort normalized otherPort = inl normalized.
Proof.
  intros [[Hne Hplain]|[(h & port & -> & Hh & Hp & Hne)
                       |[(a & -> & Ha & Hc)|(a & port & -> & Ha & Hc & Hp & Hne)]]]
         HD HpD.
  - exists (host +:+ ":" +:+ defaultPort). split.
    + rewrite hostAndPort_no_port by done.
      by rewrite JoinHostPort_plain by apply Hplain.
    + intros otherPort. by apply hostAndPort_with_port.
  - exists (h +:+ ":" +:+ port).
    split; [|intros otherPort]; by apply hostAndPort_with_port.
  - exists ("[" +:+ a +:+ "]:" +:+ defaultPort). split.
    + by apply hostAndPort_bracket_no_port.
    + intros otherPort. by apply hostAndPort_bracket_with_port.
  - exists ("[" +:+ a +:+ "]:" +:+ port).
    split; [|intros otherPort]; by apply hostAndPort_bracket_with_port.
Qed.

End AddressFacts.

Section EscapingFacts.
Import gostr upstreamldap.
Context {World Ctx : Type}.
Implicit Types p : Provider World Ctx.

Lemma escapeCount_zero (s : string) :
  (forall c, has_byte c s = true -> ldap.mustEscape c = false) ->
  ldap.escapeCount s = 0.
Proof.
  induction s as [|a s IH]; [done|]. intros Hall. cbn [ldap.escapeCount].
  rewrite (Hall a) by (cbn; by rewrite Ascii.eqb_refl).
  rewrite IH; [done|]. intros c Hc. apply Hall. cbn. by rewrite Hc, orb_true_r.
Qed.

(** X14: the escaped username cannot act as filter syntax: it holds no
    parenthesis, asterisk, NUL or byte above 0x7f, the backslash being the
    only escaped byte left in it; and a username made of other bytes only
    is passed on unchanged. *)
Theorem escapeUsernameForSearchFilter_safe p (username : string) :
  (forall c, ldap.mustEscape c = true -> c <> "\"%char ->
     has_byte c (escapeUsernameForSearchFilter p username) = false)
  /\ ((forall c, has_byte c username = true -> ldap.mustEscape c = false) ->
      escapeUsernameForSearchFilter p username = username).
Proof.
  unfold escapeUsernameForSearchFilter. split.
  - intros c. apply EscapeFilter_safe.
  - intros Hall. unfold ldap.EscapeFilter. by rewrite escapeCount_zero.
Qed.

(** X15: the URL of a provider begins with [ldaps://], and providers with
    different hosts have different URLs. *)
Theorem GetURL_identifies_host p (q : Provider World Ctx) :
  beginsWith (GetURL p) "ldaps://"
  /\ (GetURL p = GetURL q -> Host (c p) = Host (c q)).
Proof.
  unfold GetURL, ldapsScheme. split.
  - exists (Host (c p)). by rewrite <- app_assoc_s.
  - intros H. by apply (inj (String.append "ldaps")), (inj (String.append "://")) in H.
Qed.

End EscapingFacts.

(** * Token exchange: the steps before the scope gate, and the response *)

Section HandlerSteps.
Import gostr fosite oidc.
Context {Ctx Time : Type}.
Variable Has : Arguments -> string -> bool.
Variable now : Time.
Implicit Types (t : TokenExchangeHandler Ctx Time)
  (requester originalRequester : AccessRequest Time) (params : stsParams).

Abbreviation Populate_ := (PopulateTokenEndpointResponse Has now).

Lemma ExactOne_spec (r : Arguments) (name : string) :
  ExactOne r name = true <-> r = [name].
Proof.
  destruct r as [|x [|y l]]; cbn; [done| |done].
  rewrite String.eqb_eq. split; [by intros ->|by intros [= ->]].
Qed.

(** X16: the handler takes a request only when its grant types are exactly
    the token exchange grant; every other request is answered with the
    unknown-request error, and the responder is left alone, so that other
    handlers can be tried. *)
Theorem unknown_request_gate {R} `{AccessResponder R} t ctx requester (responder : R) :
  (HandleTokenEndpointRequest t ctx requester = None
   <-> GrantTypes requester = [oidcapi.GrantTypeTokenExchange])
  /\ (GrantTypes requester <> [oidcapi.GrantTypeTokenExchange] ->
      HandleTokenEndpointRequest t ctx requester = Some ErrUnknownRequest
      /\ Populate_ t ctx requester responder = (Some ErrUnknownRequest, responder)).
Proof.
  unfold PopulateTokenEndpointResponse, HandleTokenEndpointRequest,
    CanHandleTokenEndpointRequest.
  destruct (ExactOne (GrantTypes requester) oidcapi.GrantTypeTokenExchange) eqn:E;
    cbn [negb].
  - apply ExactOne_spec in E. split; [done|]. by intros Hne.
  - split; [|done]. split; [done|]. intros Heq%ExactOne_spec. congruence.
Qed.

(** X17: the subject token is looked up in storage under the signature of
    the [subject_token] parameter, with the session of the current request.
    A failed lookup is answered with request-unauthorized, a hint about the
    parameter, and the storage error as cause; a token that the strategy
    does not validate against the stored request is answered with the
    strategy's error; the responder is left alone in both cases. *)
Theorem subject_token_resolution {R} `{AccessResponder R}
    t ctx requester params (responder : R) :
  HandleTokenEndpointRequest t ctx requester = None ->
  validateParams t (Form requester) = inl params ->
  let token := url.Get (Form requester) "subject_token" in
  let lookup :=
    GetAccessTokenSession t ctx (AccessTokenSignature t token)
      (RequestSession requester) in
  (forall err,
     lookup = inr err ->
     Populate_ t ctx requester responder
     = (Some (RFC6749Error RequestUnauthorized
                (Some "Invalid 'subject_token' parameter value.") (Some err)),
        responder))
  /\ (forall originalRequester err,
        lookup = inl originalRequester ->
        ValidateAccessToken t ctx originalRequester token = Some err ->
        Populate_ t ctx requester responder = (Some err, responder)).
Proof.
  intros Hgate Hparams token lookup. subst token lookup.
  pose proof (validateParams_inl _ _ _ Hparams) as (_ & _ & _ & Hp).
  unfold PopulateTokenEndpointResponse, validateAccessToken.
  rewrite Hgate, Hparams, Hp. cbn [subjectAccessToken]. split.
  - by intros err ->.
  - by intros originalRequester err -> ->.
Qed.

(** X18: once the subject token has led to the original request, a client
    other than the one of the original request is answered with
    invalid-grant, and the same client without the token exchange grant
    type in its grant types with unauthorized-client; the responder is left
    alone in both cases. *)
Theorem client_checks {R} `{AccessResponder R}
    t ctx requester params originalRequester (responder : R) :
  HandleTokenEndpointRequest t ctx requester = None ->
  validateParams t (Form requester) = inl params ->
  validateAccessToken t ctx requester (subjectAccessToken params)
  = inl originalRequester ->
  (ID (RequestClient originalRequester) <> ID (RequestClient requester) ->
   Populate_ t ctx requester responder
   = (Some (RFC6749Error InvalidGrant
              (Some "The OAuth 2.0 Client ID from this request does not match the one from the authorize request.")
              None), responder))
  /\ (ID (RequestClient originalRequester) = ID (RequestClient requester) ->
      Has (GetGrantTypes (RequestClient requester)) oidcapi.GrantTypeTokenExchange
      = false ->
      Populate_ t ctx requester responder
      = (Some (RFC6749Error UnauthorizedClient
                 (Some ("The OAuth 2.0 Client is not allowed to use token exchange grant "
                        +:+ quoted oidcapi.GrantTypeTokenExchange +:+ "."))
                 None), responder)).
Proof.
  intros Hgate Hparams Htoken. unfold PopulateTokenEndpointResponse.
  rewrite Hgate, Hparams, Htoken. split.
  - intros Hne%String.eqb_neq. by rewrite Hne.
  - intros -> Hgrant. by rewrite String.eqb_refl, Hgrant.
Qed.

(** X19: a stored session is accepted exactly when it is a Pinniped session
    whose ID-token claims hold a non-empty string under the username claim;
    a session of another type is a server error, and a Pinniped session
    without such a username is answered with access-denied. *)
Theorem validateSession_accepts t requester :
  (validateSession t requester = None
   <-> exists session username,
         RequestSession requester = PinnipedSession session
         /\ psession.IDTokenClaimsExtra session !! oidcapi.IDTokenClaimUsername
            = Some (psession.StringValue username)
         /\ username <> "")
  /\ (RequestSession requester = OtherSession ->
      exists err, validateSession t requester = Some err
                  /\ nameOf err = Some ServerError)
  /\ (forall session err,
        RequestSession requester = PinnipedSession session ->
        validateSession t requester = Some err ->
        nameOf err = Some AccessDenied).
Proof.
  unfold validateSession. destruct (RequestSession requester) as [session|].
  - destruct (psession.IDTokenClaimsExtra session !! oidcapi.IDTokenClaimUsername)
      as [[username|]|] eqn:Hclaim.
    + destruct (String.eqb_spec username "") as [->|Hne].
      * split; [|split; [done|]].
        -- split; [done|]. intros (s & u & [= <-] & Hu & Hne).
           rewrite Hclaim in Hu. by injection Hu as <-.
        -- by intros s err _ [= <-].
      * split; [|split; [done|done]].
        split; [|done]. intros _. by exists session, username.
    + split; [|split; [done|]].
      * split; [done|]. intros (s & u & [= <-] & Hu & _). by rewrite Hclaim in Hu.
      * by intros s err _ [= <-].
    + split; [|split; [done|]].
      * split; [done|]. intros (s & u & [= <-] & Hu & _). by rewrite Hclaim in Hu.
      * by intros s err _ [= <-].
  - split; [|split; [eauto|done]].
    split; [done|]. by intros (s & u & [=] & _).
Qed.


(** The handler returns an error with the responder as it was, or no error
    with the three fields set. *)
Lemma Populate_cases {R} `{AccessResponder R} t ctx requester (responder : R) :
  (exists err, Populate_ t ctx requester responder = (Some err, responder))
  \/ (exists token,
        Populate_ t ctx requester responder = (None, populated token responder)).
Proof.
  unfold PopulateTokenEndpointResponse.
  destruct (HandleTokenEndpointRequest t ctx requester); [left; by eauto|].
  destruct (validateParams t (Form requester)) as [params|]; [|left; by eauto].
  destruct (validateAccessToken t ctx requester (subjectAccessToken params))
    as [originalRequester|]; [|left; by eauto].
  destruct (negb (String.eqb _ _)); [left; by eauto|].
  destruct (negb (Has (GetGrantTypes _) _)); [left; by eauto|].
  destruct (negb (Has _ oidcapi.ScopeRequestAudience)); [left; by eauto|].
  destruct (negb (Has _ oidcapi.ScopeOpenID)); [left; by eauto|].
  destruct (validateSession t originalRequester); [left; by eauto|].
  destruct (mintJWT now t ctx originalRequester (requestedAudience params));
    [right; by eauto|left; by eauto].
Qed.

(** X21: on fosite's [AccessResponse] the handler touches one extra field
    only: on every path, whatever another component has put under a key
    other than [issued_token_type] is still there afterwards. *)
Theorem other_extra_fields_pass_through t ctx requester
    (response : AccessResponse) (key : string) :
  key <> "issued_token_type" ->
  Extra (snd (Populate_ t ctx requester response)) !! key = Extra response !! key.
Proof.
  intros Hkey.
  destruct (Populate_cases t ctx requester response) as [[err ->]|[token ->]];
    [done|].
  cbn. by rewrite lookup_insert_ne.
Qed.

Lemma firstSent_ext (p1 p2 : url.Values) (names : list string) :
  (forall name, In name names -> url.Get p1 name = url.Get p2 name) ->
  firstSent p1 names = firstSent p2 names.
Proof.
  induction names as [|n names IH]; [done|]. intros Hsame. cbn.
  rewrite (Hsame n) by (by left). rewrite IH; [done|].
  intros name Hin. apply Hsame. by right.
Qed.

Lemma Get_first_value (m : url.Values) (key name value : string)
    (more : list string) :
  url.Get (<[key := value :: more]> m) name = url.Get (<[key := [value]]> m) name.
Proof.
  unfold url.Get. destruct (decide (key = name)) as [->|Hne].
  - by rewrite !lookup_insert_eq.
  - by rewrite !lookup_insert_ne.
Qed.

(** X22: parameter validation reads the first value of eight parameters and
    nothing else: two forms that agree on those give the same result, with
    any handler, so further parameters are ignored, and so are the further
    values of a parameter that is sent more than once. *)
Theorem validateParams_reads_first_values t (t' : TokenExchangeHandler Ctx Time)
    (form1 form2 : url.Values) :
  ((forall name,
      In name ["audience"; "subject_token"; "subject_token_type";
               "requested_token_type"; "resource"; "scope"; "actor_token";
               "actor_token_type"] ->
      url.Get form1 name = url.Get form2 name) ->
   validateParams t form1 = validateParams t' form2)
  /\ (forall key value more,
        validateParams t (<[key := value :: more]> form1)
        = validateParams t (<[key := [value]]> form1)).
Proof.
  assert (Hmain : forall (h h' : TokenExchangeHandler Ctx Time) f1 f2,
             (forall name,
                In name ["audience"; "subject_token"; "subject_token_type";
                         "requested_token_type"; "resource"; "scope"; "actor_token";
                         "actor_token_type"] ->
                url.Get f1 name = url.Get f2 name) ->
             validateParams h f1 = validateParams h' f2).
  { intros h h' f1 f2 Hsame. unfold validateParams.
    rewrite (Hsame "audience") by (cbn; auto).
    rewrite (Hsame "subject_token") by (cbn; auto).
    rewrite (Hsame "subject_token_type") by (cbn; auto).
    rewrite (Hsame "requested_token_type") by (cbn; auto 6).
    rewrite (firstSent_ext f1 f2); [done|].
    intros name Hin. apply Hsame. cbn in *. tauto. }
  split; [apply Hmain|].
  intros key value more. apply Hmain. intros name _. apply Get_first_value.
Qed.

End HandlerSteps.

(** * The line filter of the generated command help *)

Section HelpFilter.
Import gostr cmd.
#[local] Arguments String.append !s1 s2 : simpl nomatch.

(** X23: [containsPrefix] holds exactly when the string begins with one of
    the prefixes; so no prefix means no match, and an empty prefix matches
    every string. *)
Theorem containsPrefix_spec (s : string) (prefixes : list string) :
  (containsPrefix s prefixes = true
   <-> exists prefix, In prefix prefixes /\ beginsWith s prefix)
  /\ containsPrefix s [] = false
  /\ (In "" prefixes -> containsPrefix s prefixes = true).
Proof.
  assert (Hiff : containsPrefix s prefixes = true
                 <-> exists prefix, In prefix prefixes /\ beginsWith s prefix).
  { induction prefixes as [|q prefixes IH]; cbn.
    - split; [done|]. by intros (? & [] & _).
    - destruct (strings.HasPrefix s q) eqn:Hq.
      + split; [|done]. intros _. exists q. split; [by left|].
        by apply HasPrefix_beginsWith.
      + rewrite IH. split.
        * intros (prefix & Hin & Hb). exists prefix. auto.
        * intros (prefix & [<-|Hin] & Hb); [|by eauto].
          apply HasPrefix_beginsWith in Hb. congruence. }
  split; [done|]. split; [done|].
  intros Hin. apply Hiff. exists "". split; [done|]. by exists s.
Qed.

Lemma concat_no_separator (x : string) (xs : list string) :
  String.concat "" (x :: xs) = x +:+ String.concat "" xs.
Proof. destruct xs; cbn [String.concat]; [by rewrite app_nil_r_s|done]. Qed.

(** X24: into a buffer, [write] puts each line that begins with none of the
    unwanted prefixes, in the order read and with a line feed behind it,
    after what the buffer held, and puts nothing else; what it returns is
    the error of the scanner. *)
Theorem write_to_buffer (contents : string) (lines : list string)
    (scanErr : option string) (unwantedPrefixes : list string) :
  write contents lines scanErr unwantedPrefixes
  = (scanErr,
     contents
     +:+ String.concat ""
           (map (fun line => line +:+ newline)
              (List.filter (fun line => negb (containsPrefix line unwantedPrefixes))
                 lines))).
Proof.
  revert contents. induction lines as [|line rest IH]; intros contents.
  - cbn. by rewrite app_nil_r_s.
  - cbn [write List.filter].
    destruct (negb (containsPrefix line unwantedPrefixes)); [|apply IH].
    cbn [Fprintln Write buffer map]. rewrite IH, concat_no_separator.
    by rewrite app_assoc_s.
Qed.

(** X25: [write] stops at the first error of the writer: writing the lines
    of two readers in a row is writing the first and, only if that gave no
    error, the second from the state the writer is then in; after an error
    no further line is written and the error of the scanner is not
    reported. *)
Theorem write_stops_at_first_error {W} `{Writer W} (w : W)
    (lines more : list string) (scanErr : option string)
    (unwantedPrefixes : list string) :
  write w (lines ++ more) scanErr unwantedPrefixes
  = match write w lines None unwantedPrefixes with
    | (Some err, w') => (Some err, w')
    | (None, w') => write w' more scanErr unwantedPrefixes
    end.
Proof.
  revert w. induction lines as [|line rest IH]; intros w; [done|].
  cbn [write app].
  destruct (negb (containsPrefix line unwantedPrefixes)); [|apply IH].
  destruct (Fprintln w line) as [[err|] w']; [done|apply IH].
Qed.

End HelpFilter.

(** * The provider: reading attributes, and the errors of a login *)

Section AuthenticationErrors.
Import gostr upstreamldap.
#[local] Arguments String.append !s1 s2 : simpl nomatch.
Context {World Ctx : Type}.
Variable AppendCertsFromPEM : list ascii -> bool.
Variable tlsDialAndStart :
  Ctx -> option (list ascii) -> string -> World -> (Conn World + error) * World.
Implicit Types (p : Provider World Ctx) (st : State World) (conn : Conn World).

Abbreviation dial_e := (dial AppendCertsFromPEM tlsDialAndStart).
Abbreviation AuthenticateUser_e :=
  (AuthenticateUser AppendCertsFromPEM tlsDialAndStart).
Abbreviation searched_e := (searched AppendCertsFromPEM tlsDialAndStart).

Lemma inr_eq {A B} (x y : B) : @inr A B x = inr y -> x = y.
Proof. congruence. Qed.

Lemma Contains_middle (a s b : string) :
  strings.Contains (a +:+ s +:+ b) s = true.
Proof. apply Contains_spec. by exists a, b. Qed.

(** X26: the attribute ["dn"] is read from the DN of the entry, whatever
    attributes the entry has; any other attribute must have exactly one
    value, and a non-empty one, which is then the result; every error names
    the attribute and the username. *)
Theorem getSearchResultAttributeValue_cases p (attributeName : string)
    (entry : ldap.Entry) (username : string) :
  (attributeName = "dn" ->
   getSearchResultAttributeValue p attributeName entry username
   = inl (ldap.DN entry))
  /\ (attributeName <> "dn" ->
      forall value,
        getSearchResultAttributeValue p attributeName entry username = inl value
        <-> ldap.GetAttributeValues (ldap.Attributes entry) attributeName = [value]
            /\ value <> "")
  /\ (forall err,
        getSearchResultAttributeValue p attributeName entry username = inr err ->
        strings.Contains err (quoted attributeName) = true
        /\ strings.Contains err (quoted username) = true).
Proof.
  unfold getSearchResultAttributeValue, distinguishedNameAttributeName.
  split; [by intros ->|]. split.
  - intros Hne%String.eqb_neq value. rewrite Hne. cbv zeta.
    destruct (ldap.GetAttributeValues _ _) as [|v [|v2 l]].
    + split; [done|]. by intros [[=] _].
    + destruct (len v =? 0) eqn:Hlen.
      * apply len_eqb_empty in Hlen as ->. split; [done|]. by intros [[= <-] ?].
      * split.
        -- intros [= <-]. split; [done|]. intros ->. done.
        -- by intros [[= <-] _].
    + split; [done|]. by intros [[=] _].
  - intros err. destruct (String.eqb attributeName "dn"); [done|].
    assert (Hname : forall a b,
               strings.Contains
                 (a +:+ quoted attributeName +:+ " while searching for user "
                  +:+ quoted username +:+ b) (quoted attributeName) = true)
      by (intros a b; apply Contains_middle).
    assert (Huser : forall a b,
               strings.Contains
                 (a +:+ quoted attributeName +:+ " while searching for user "
                  +:+ quoted username +:+ b) (quoted username) = true).
    { intros a b.
      replace (a +:+ quoted attributeName +:+ " while searching for user "
               +:+ quoted username +:+ b)
        with ((a +:+ quoted attributeName +:+ " while searching for user ")
              +:+ quoted username +:+ b) by (by rewrite !app_assoc_s).
      apply Contains_middle. }
    assert (Hcount : forall n : nat,
               "found " +:+ decimal n +:+ " values for attribute "
               +:+ quoted attributeName +:+ " while searching for user "
               +:+ quoted username +:+ ", but expected 1 result"
               = ("found " +:+ decimal n +:+ " values for attribute ")
                 +:+ quoted attributeName +:+ " while searching for user "
                 +:+ quoted username +:+ ", but expected 1 result")
      by (intros n; by rewrite !app_assoc_s).
    cbv zeta.
    destruct (ldap.GetAttributeValues _ _) as [|v [|v2 l]]; cbv beta iota;
      [intros <-%inr_eq; rewrite Hcount; by split|
      |intros <-%inr_eq; rewrite Hcount; by split].
    destruct (len v =? 0); [|done]. intros <-%inr_eq. by split.
Qed.

Lemma authenticateUserImpl_after_bind p ctx username
    (bindFunc : Conn World -> string -> M (option error)) st conn st1 st2 :
  validateConfig p = None -> username <> "" ->
  dial_e p ctx st = (inl conn, st1) ->
  connBind conn (BindUsername (c p)) (BindPassword (c p)) st1 = (None, st2) ->
  fst (authenticateUserImpl AppendCertsFromPEM tlsDialAndStart p ctx username
         bindFunc st)
  = match fst (searchAndBindUser p conn username bindFunc st2) with
    | (_, _, Some e) => (None, false, Some e)
    | (mappedUsername, mappedUID, None) =>
        if (len mappedUsername =? 0) || (len mappedUID =? 0)
        then (None, false, None)
        else (Some {| User := {| Name := mappedUsername; UID := mappedUID;
                                 Groups := [] |} |}, true, None)
    end.
Proof.
  intros Hvalid Hu Hdial Hbind. unfold authenticateUserImpl. rewrite Hvalid.
  replace (len username =? 0) with false
    by (symmetry; apply not_true_iff_false; by rewrite len_eqb_empty).
  unfold bind at 1. rewrite Hdial, deferClose_fst.
  unfold bind at 1. rewrite Hbind. unfold bind.
  destruct (searchAndBindUser p conn username bindFunc st2) as [[[mu mi] [e|]] st3];
    [done|]. cbn [fst]. by destruct (_ || _).
Qed.

(** X27: every error of a login tells the step it comes from.  With a valid
    config and a non-empty username: a failed dial is reported with the
    host; a failed service-account bind with the bind username, whatever the
    server's reason, invalid credentials included; a failed search with the
    username; an entry without DN as such; and an end-user bind that fails
    for a reason other than invalid credentials with the username and the
    DN. *)
Theorem AuthenticateUser_error_steps p ctx username password st :
  validateConfig p = None -> username <> "" ->
  (forall e st1,
     dial_e p ctx st = (inr e, st1) ->
     fst (AuthenticateUser_e p ctx username password st)
     = (None, false,
        Some ("error dialing host " +:+ quoted (Host (c p)) +:+ ": " +:+ e)))
  /\ (forall conn st1 e st2,
        dial_e p ctx st = (inl conn, st1) ->
        connBind conn (BindUsername (c p)) (BindPassword (c p)) st1 = (Some e, st2) ->
        fst (AuthenticateUser_e p ctx username password st)
        = (None, false,
           Some ("error binding as " +:+ quoted (BindUsername (c p))
                 +:+ " before user search: " +:+ e)))
  /\ (forall conn st1 st2 e st3,
        dial_e p ctx st = (inl conn, st1) ->
        connBind conn (BindUsername (c p)) (BindPassword (c p)) st1 = (None, st2) ->
        connSearch conn (userSearchRequest p username) st2 = (inr e, st3) ->
        fst (AuthenticateUser_e p ctx username password st)
        = (None, false,
           Some ("error searching for user " +:+ quoted username +:+ ": " +:+ e)))
  /\ (forall conn res st' entry,
        searched_e p ctx username st conn res st' ->
        ldap.Entries res = [entry] -> ldap.DN entry = "" ->
        fst (AuthenticateUser_e p ctx username password st)
        = (None, false,
           Some ("searching for user " +:+ quoted username
                 +:+ " resulted in search result without DN")))
  /\ (forall conn res st' entry e st'',
        searched_e p ctx username st conn res st' ->
        found p username res entry ->
        connBind conn (ldap.DN entry) password st' = (Some e, st'') ->
        strings.HasPrefix e invalidCredentialsErrorPrefix = false ->
        fst (AuthenticateUser_e p ctx username password st)
        = (None, false,
           Some ("error binding for user " +:+ quoted username
                 +:+ " using provided password against DN "
                 +:+ quoted (ldap.DN entry) +:+ ": " +:+ e))).
Proof.
  intros Hvalid Hu. unfold AuthenticateUser.
  assert (Hne : (len username =? 0) = false)
    by (apply not_true_iff_false; by rewrite len_eqb_empty).
  split; [|split; [|split; [|split]]].
  - intros e st1 Hdial. unfold authenticateUserImpl. rewrite Hvalid, Hne.
    unfold bind at 1. by rewrite Hdial.
  - intros conn st1 e st2 Hdial Hbind. unfold authenticateUserImpl.
    rewrite Hvalid, Hne. unfold bind at 1. rewrite Hdial, deferClose_fst.
    unfold bind at 1. by rewrite Hbind.
  - intros conn st1 st2 e st3 Hdial Hbind Hsearch.
    rewrite (authenticateUserImpl_after_bind _ _ _ _ _ _ _ _ Hvalid Hu Hdial Hbind).
    unfold searchAndBindUser, bind. by rewrite Hsearch.
  - intros conn res st' entry (st1 & st2 & Hdial & Hbind & Hsearch) HE HDN.
    rewrite (authenticateUserImpl_after_bind _ _ _ _ _ _ _ _ Hvalid Hu Hdial Hbind).
    unfold searchAndBindUser, bind. by rewrite Hsearch, HE, HDN.
  - intros conn res st' entry e st'' (st1 & st2 & Hdial & Hbind & Hsearch)
      (HE & HDN & [n Hn] & [u Hi]) Huser Hprefix.
    rewrite (authenticateUserImpl_after_bind _ _ _ _ _ _ _ _ Hvalid Hu Hdial Hbind).
    unfold searchAndBindUser, bind. rewrite Hsearch, HE.
    replace (len (ldap.DN entry) =? 0) with false
      by (symmetry; apply not_true_iff_false; by rewrite len_eqb_empty).
    by rewrite Hn, Hi, Huser, Hprefix.
Qed.

End AuthenticationErrors.

(** * The properties above, at concrete inputs *)

Section RunExamples.
Import gostr upstreamldap examples moreExamples.

Lemma AuthenticateUser_command_order_witness :
  let tr := trace (snd (AuthenticateUser noPEM noTLS aliceProvider tt
                          "alice" "pw" start)) in
  let service := EvBind "cn=admin,dc=x" "secret" in
  let search := EvSearch (userSearchRequest aliceProvider "alice") in
  tr = trace dialed ++ [service; EvClose]
  \/ tr = trace dialed ++ [service; search; EvClose]
  \/ exists dn, tr = trace dialed ++ [service; search; EvBind dn "pw"; EvClose].
Proof.
  exact (AuthenticateUser_command_order noPEM noTLS aliceProvider tt
           "alice" "pw" start (conn [alice]) dialed
           eq_refl ltac:(discriminate) eq_refl).
Defined.

Lemma DryRunAuthenticateUser_never_binds_user_witness :
  let tr := trace (snd (DryRunAuthenticateUser noPEM noTLS aliceProvider tt
                          "alice" start)) in
  let service := EvBind "cn=admin,dc=x" "secret" in
  let search := EvSearch (userSearchRequest aliceProvider "alice") in
  tr = trace dialed ++ [service; EvClose]
  \/ tr = trace dialed ++ [service; search; EvClose].
Proof.
  exact (DryRunAuthenticateUser_never_binds_user noPEM noTLS aliceProvider tt
           "alice" start (conn [alice]) dialed
           eq_refl ltac:(discriminate) eq_refl).
Defined.

Lemma DryRun_agrees_with_login_witness :
  fst (DryRunAuthenticateUser noPEM noTLS aliceProvider tt "alice" start)
  = (Some {| User := {| Name := "alice"; UID := "1001"; Groups := [] |} |},
     true, None).
Proof.
  exact (DryRun_agrees_with_login noPEM noTLS aliceProvider tt "alice" "pw" start
           {| User := {| Name := "alice"; UID := "1001"; Groups := [] |} |}
           eq_refl).
Defined.

Lemma AuthenticateUser_password_only_in_bind_witness :
  fst (AuthenticateUser noPEM noTLS aliceProvider tt "alice" "pw" start)
  = fst (AuthenticateUser noPEM noTLS aliceProvider tt "alice" "another" start).
Proof.
  apply (AuthenticateUser_password_only_in_bind noPEM noTLS aliceProvider tt
           "alice" "pw" "another" start).
  intros conn0 st1 Hdial dn st'.
  assert (conn0 = conn [alice]) as -> by (by injection Hdial).
  reflexivity.
Defined.

Lemma default_dial_errors_witness :
  dial onlyPEM alwaysTLS bundled tt
    (startWith {[ 1%positive := ["X"; "E"; "M"]%char ]})
  = (inr (ldap.NewError_ErrorNetwork "could not parse CA bundle"),
     startWith {[ 1%positive := ["X"; "E"; "M"]%char ]}).
Proof.
  apply (proj2 (proj2 (default_dial_errors onlyPEM alwaysTLS bundled tt
                         (startWith {[ 1%positive := ["X"; "E"; "M"]%char ]})
                         eq_refl))
           "ldap.example.com:636"
           {| data := 1%positive; upstreamldap.start := 0%nat; count := 3%nat |});
    reflexivity.
Defined.


Lemma TestConnection_outcomes_witness :
  fst (TestConnection noPEM noTLS aliceProvider tt start) = None.
Proof.
  apply (proj1 (TestConnection_outcomes noPEM noTLS aliceProvider tt start eq_refl)).
  exists (conn [alice]), dialed. eexists. split; reflexivity.
Defined.

Lemma hostAndPortWithDefaultPort_idempotent_witness :
  exists normalized,
    hostAndPortWithDefaultPort "[::1]" "636" = inl normalized
    /\ forall otherPort,
         hostAndPortWithDefaultPort normalized otherPort = inl normalized.
Proof.
  apply (hostAndPortWithDefaultPort_idempotent "[::1]" "636").
  - right; right; left. exists "::1". by repeat split.
  - discriminate.
  - by repeat split.
Defined.

Lemma AuthenticateUser_error_steps_witness :
  fst (AuthenticateUser noPEM noTLS
         (provider "" "cn" "uid" (Some (dialer [nameless]))) tt "alice" "pw" start)
  = (None, false,
     Some ("searching for user " +:+ quoted "alice"
           +:+ " resulted in search result without DN")).
Proof.
  apply (proj1 (proj2 (proj2 (proj2
           (AuthenticateUser_error_steps noPEM noTLS
              (provider "" "cn" "uid" (Some (dialer [nameless]))) tt "alice" "pw"
              start eq_refl ltac:(discriminate)))))
           (conn [nameless]) {| ldap.Entries := [nameless] |}
           (searchedFor (provider "" "cn" "uid" (Some (dialer [nameless]))) "alice")
           nameless);
    [|reflexivity|reflexivity].
  exists dialed. eexists. split; [|split]; reflexivity.
Defined.

End RunExamples.

Section ExchangeRunExamples.
Import gostr fosite oidc exchangeExamples moreExamples.

Lemma subject_token_resolution_witness :
  PopulateTokenEndpointResponse has 0%nat forgetful tt (request "cluster-a") blank
  = (Some (RFC6749Error RequestUnauthorized
             (Some "Invalid 'subject_token' parameter value.")
             (Some (OtherError "not found"))), blank).
Proof.
  apply (proj1 (subject_token_resolution has 0%nat forgetful tt (request "cluster-a")
                  {| subjectAccessToken := "T"; requestedAudience := "cluster-a" |}
                  blank eq_refl eq_refl)).
  reflexivity.
Defined.

Lemma client_checks_witness :
  PopulateTokenEndpointResponse has 0%nat (handler allScopes) tt strangerRequest blank
  = (Some (RFC6749Error InvalidGrant
             (Some "The OAuth 2.0 Client ID from this request does not match the one from the authorize request.")
             None), blank).
Proof.
  apply (proj1 (client_checks has 0%nat (handler allScopes) tt strangerRequest
                  {| subjectAccessToken := "T"; requestedAudience := "cluster-a" |}
                  (original allScopes) blank eq_refl eq_refl eq_refl)).
  discriminate.
Defined.

Lemma other_extra_fields_pass_through_witness :
  Extra (snd (PopulateTokenEndpointResponse has 0%nat (handler allScopes) tt
                (request "cluster-a") prepared)) !! "scope"
  = Some "openid".
Proof.
  rewrite (other_extra_fields_pass_through has 0%nat (handler allScopes) tt
             (request "cluster-a") prepared "scope"); [reflexivity|discriminate].
Defined.

End ExchangeRunExamples.
